(** * SloTask: the Kanban board view and the card-detail modal

    A shallow embedding of the event handlers of
    [src/components/project/CardDetailModal.tsx] (which holds both the
    card-detail modal and the drag-and-drop [KanbanBoard] component):
    [fetchBoards], [handleDragEnd], [createBoard], [createCard], [addTag],
    [removeTag] and [updateCardTags].

    The React state of the two components, the remote tables they talk to
    and the trace of requests and notifications are threaded through a small
    state-and-exception monad.  Every request to the remote store consumes
    one scripted [Outcome], so that a run can be replayed with a write that
    succeeds, that resolves with an [error] field, or that rejects. *)

From Stdlib Require Import ZArith NArith String Ascii.
From stdpp Require Import base option list gmap sorting.

Local Open Scope Z_scope.

(** ** JavaScript strings *)

(** A JavaScript string is a sequence of UTF-16 code units.  Identifiers,
    titles and tags are kept in that form; the fixed texts of notifications
    are ordinary [string]s. *)
Abbreviation jsstring := (list N).

Definition js (s : string) : jsstring :=
  (fun a : ascii => N_of_ascii a) <$> list_ascii_of_string s.

(** ECMAScript [WhiteSpace] and [LineTerminator] code units, the ones
    [String.prototype.trim] strips. *)
Definition isWhiteSpace (c : N) : bool :=
  ((9 <=? c) && (c <=? 13) || (c =? 32) || (c =? 160) || (c =? 5760)
   || (8192 <=? c) && (c <=? 8202) || (c =? 8232) || (c =? 8233)
   || (c =? 8239) || (c =? 8287) || (c =? 12288) || (c =? 65279))%N.

Fixpoint trimStart (s : jsstring) : jsstring :=
  match s with
  | c :: s' => if isWhiteSpace c then trimStart s' else s
  | [] => []
  end.

Definition trim (s : jsstring) : jsstring :=
  reverse (trimStart (reverse (trimStart s))).

(** Truthiness of a string: the empty string is the only falsy one. *)
Definition truthy (s : jsstring) : bool :=
  match s with [] => false | _ => true end.

(** ** Data model *)

Inductive Priority := low | medium | high | urgent.

Module Board.
(** [interface Board] *)
Record t := mk { id : jsstring; name : jsstring; position : Z }.
End Board.

Module CardData.
(** [interface CardData] *)
Record t := mk {
  id : jsstring;
  title : jsstring;
  description : option jsstring;
  priority : Priority;
  position : Z;
  board_id : jsstring;
  tags : list jsstring;
  due_date : option jsstring
}.

(** [card.board_id = b] on a card object. *)
Definition set_board_id (b : jsstring) (c : t) : t :=
  mk (id c) (title c) (description c) (priority c) (position c) b
     (tags c) (due_date c).
End CardData.

(** A drag location and the result handed to [onDragEnd]. *)
Record Location := { droppableId : jsstring; index : nat }.

Record DropResult := {
  destination : option Location;
  source : Location;
  draggableId : jsstring
}.

(** ** The remote store *)

(** Rows of the [boards] and [cards] tables, without their primary key:
    a table is a finite map from the [id] column to the rest of the row. *)
Record BoardRow := {
  br_name : jsstring;
  br_project_id : jsstring;
  br_position : Z
}.

Record CardRow := {
  cr_title : jsstring;
  cr_description : option jsstring;
  cr_priority : Priority;
  cr_position : Z;
  cr_board_id : jsstring;
  cr_tags : list jsstring;
  cr_due_date : option jsstring
}.

Definition toBoard (k : jsstring) (r : BoardRow) : Board.t :=
  Board.mk k (br_name r) (br_position r).

Definition toCard (k : jsstring) (r : CardRow) : CardData.t :=
  CardData.mk k (cr_title r) (cr_description r) (cr_priority r)
    (cr_position r) (cr_board_id r) (cr_tags r) (cr_due_date r).

(** The object passed to [.update(...)] on the [cards] table: the columns
    that are present are overwritten. *)
Record CardPatch := {
  p_board_id : option jsstring;
  p_position : option Z;
  p_tags : option (list jsstring)
}.

Definition applyPatch (p : CardPatch) (r : CardRow) : CardRow :=
  {| cr_title := cr_title r;
     cr_description := cr_description r;
     cr_priority := cr_priority r;
     cr_position := default (cr_position r) (p_position p);
     cr_board_id := default (cr_board_id r) (p_board_id p);
     cr_tags := default (cr_tags r) (p_tags p);
     cr_due_date := cr_due_date r |}.

Record Store := {
  boards_tbl : gmap jsstring BoardRow;
  cards_tbl : gmap jsstring CardRow;
  (** number of rows inserted so far; the next primary key is generated
      from it *)
  serial : nat
}.

(** What happens to one request: it is applied and resolves with data, it
    is refused and resolves with an [error] field, or the awaited promise
    rejects. *)
Inductive Outcome :=
| Done
| Failed (message : string)
| Rejected (message : string).

Inductive Request :=
| SelectBoards (project_id : jsstring)
| SelectCards (board_ids : list jsstring)
| InsertBoard (row : BoardRow)
| InsertCard (row : CardRow)
| UpdateCard (id : jsstring) (patch : CardPatch).

Inductive Event :=
| Sent (r : Request)
| Toast (title description : string) (destructive : bool)
| ConsoleError (context : string).

(** The [{ data, error }] object a request resolves with. *)
Inductive Reply (A : Type) :=
| Data (data : A)
| PgError (message : string).
Arguments Data {A} data.
Arguments PgError {A} message.

(** ** Component state *)

Record NewCard := {
  nc_title : jsstring;
  nc_description : jsstring;
  nc_priority : Priority
}.

(** [KanbanBoard]: the [projectId] prop and the [useState] cells the
    modelled handlers read or write. *)
Record Kanban := {
  projectId : jsstring;
  boards : list Board.t;
  cards : gmap jsstring (list CardData.t);
  loading : bool;
  showBoardDialog : bool;
  showCardDialog : bool;
  selectedBoardId : jsstring;
  newBoard : jsstring;
  newCard : NewCard
}.

(** [CardDetailModal]: the [card] prop and the tag cells. *)
Record Modal := {
  card : CardData.t;
  tags : list jsstring;
  newTag : jsstring
}.

Record World := {
  kanban : Kanban;
  modal : Modal;
  db : Store;
  faults : list Outcome;
  log : list Event
}.

Definition with_kanban (f : Kanban -> Kanban) (w : World) : World :=
  {| kanban := f (kanban w); modal := modal w; db := db w;
     faults := faults w; log := log w |}.

Definition with_modal (f : Modal -> Modal) (w : World) : World :=
  {| kanban := kanban w; modal := f (modal w); db := db w;
     faults := faults w; log := log w |}.

Definition with_db (f : Store -> Store) (w : World) : World :=
  {| kanban := kanban w; modal := modal w; db := f (db w);
     faults := faults w; log := log w |}.

Definition with_faults (f : list Outcome -> list Outcome) (w : World) : World :=
  {| kanban := kanban w; modal := modal w; db := db w;
     faults := f (faults w); log := log w |}.

Definition emit (e : Event) (w : World) : World :=
  {| kanban := kanban w; modal := modal w; db := db w;
     faults := faults w; log := log w ++ [e] |}.

(** ** The handler monad *)

(** A thrown JavaScript value: an error carrying a message. *)
Inductive Exn := Error (message : string).

Definition message_of (e : Exn) : string := let 'Error m := e in m.

Inductive Res (A : Type) :=
| Ret (a : A)
| Throw (e : Exn).
Arguments Ret {A} a.
Arguments Throw {A} e.

Definition M (A : Type) : Type := World -> Res A * World.

Definition ret {A} (a : A) : M A := fun w => (Ret a, w).

Definition bind {A B} (m : M A) (k : A -> M B) : M B :=
  fun w => match m w with
           | (Ret a, w') => k a w'
           | (Throw e, w') => (Throw e, w')
           end.

Definition throw {A} (e : Exn) : M A := fun w => (Throw e, w).

(** [try { body } catch (error) { handler }] *)
Definition try_catch {A} (body : M A) (handler : Exn -> M A) : M A :=
  fun w => match body w with
           | (Ret a, w') => (Ret a, w')
           | (Throw e, w') => handler e w'
           end.

Definition get : M World := fun w => (Ret w, w).
Definition modify (f : World -> World) : M unit := fun w => (Ret tt, f w).

Declare Scope handler_scope.
Delimit Scope handler_scope with handler.
Notation "x <- m ;; k" := (bind m (fun x => k))
  (at level 100, m at next level, right associativity) : handler_scope.
Notation "m ;; k" := (bind m (fun _ => k))
  (at level 100, right associativity) : handler_scope.
Local Open Scope handler_scope.

(** [for (const x of l) { await f(x) }] *)
Fixpoint for_of {A} (l : list A) (f : A -> M unit) : M unit :=
  match l with
  | [] => ret tt
  | x :: l' => f x ;; for_of l' f
  end.

Definition when (b : bool) (m : M unit) : M unit :=
  if b then m else ret tt.

(** The world a handler leaves behind. *)
Definition exec {A} (m : M A) (w : World) : World := snd (m w).

(** ** Requests to the store *)

(** [.order('position')]: ascending by the stored position.  The order of
    rows sharing a position is left to the store; here it is whatever
    [merge_sort] makes of the table's enumeration. *)
Definition by_position {A} (pos : A -> Z) : relation A :=
  fun x y => pos x <= pos y.

#[global] Instance by_position_dec {A} (pos : A -> Z) :
  RelDecision (by_position pos).
Proof. intros x y. unfold by_position. apply _. Defined.

Definition selectBoards (pid : jsstring) (s : Store) : list Board.t :=
  merge_sort (by_position Board.position)
    ((fun kr => toBoard kr.1 kr.2)
       <$> filter (fun kr => br_project_id kr.2 = pid)
                  (map_to_list (boards_tbl s))).

Definition selectCards (ids : list jsstring) (s : Store) : list CardData.t :=
  merge_sort (by_position CardData.position)
    ((fun kr => toCard kr.1 kr.2)
       <$> filter (fun kr => cr_board_id kr.2 ∈ ids)
                  (map_to_list (cards_tbl s))).

(** [.update(patch).eq('id', k)]: the row whose key is [k], if any. *)
Definition updateCard (k : jsstring) (p : CardPatch) (s : Store) : Store :=
  {| boards_tbl := boards_tbl s;
     cards_tbl := alter (applyPatch p) k (cards_tbl s);
     serial := serial s |}.

Definition outcome : M Outcome :=
  fun w => match faults w with
           | [] => (Ret Done, w)
           | o :: os => (Ret o, with_faults (fun _ => os) w)
           end.

(** One awaited request: it is recorded, then the scripted outcome decides
    whether the store applies it. *)
Definition request {A} (r : Request) (apply : Store -> Reply A * Store) :
  M (Reply A) :=
  modify (emit (Sent r)) ;;
  o <- outcome ;;
  match o with
  | Done => fun w => let '(a, s) := apply (db w) in
                     (Ret a, with_db (fun _ => s) w)
  | Failed m => ret (PgError m)
  | Rejected m => throw (Error m)
  end.

(** [if (error) throw error;] *)
Definition orThrow {A} (r : Reply A) : M A :=
  match r with
  | Data d => ret d
  | PgError m => throw (Error m)
  end.

Definition update_cards (k : jsstring) (p : CardPatch) : M (Reply unit) :=
  request (UpdateCard k p) (fun s => (Data tt, updateCard k p s)).

Definition select_boards (pid : jsstring) : M (Reply (list Board.t)) :=
  request (SelectBoards pid) (fun s => (Data (selectBoards pid s), s)).

Definition select_cards (ids : list jsstring) : M (Reply (list CardData.t)) :=
  request (SelectCards ids) (fun s => (Data (selectCards ids s), s)).

(** ** State setters *)

Definition setBoards (v : list Board.t) : M unit :=
  modify (with_kanban (fun k =>
    {| projectId := projectId k; boards := v; cards := cards k;
       loading := loading k; showBoardDialog := showBoardDialog k;
       showCardDialog := showCardDialog k;
       selectedBoardId := selectedBoardId k; newBoard := newBoard k;
       newCard := newCard k |})).

Definition setCards (v : gmap jsstring (list CardData.t)) : M unit :=
  modify (with_kanban (fun k =>
    {| projectId := projectId k; boards := boards k; cards := v;
       loading := loading k; showBoardDialog := showBoardDialog k;
       showCardDialog := showCardDialog k;
       selectedBoardId := selectedBoardId k; newBoard := newBoard k;
       newCard := newCard k |})).

Definition setLoading (v : bool) : M unit :=
  modify (with_kanban (fun k =>
    {| projectId := projectId k; boards := boards k; cards := cards k;
       loading := v; showBoardDialog := showBoardDialog k;
       showCardDialog := showCardDialog k;
       selectedBoardId := selectedBoardId k; newBoard := newBoard k;
       newCard := newCard k |})).

Definition setShowBoardDialog (v : bool) : M unit :=
  modify (with_kanban (fun k =>
    {| projectId := projectId k; boards := boards k; cards := cards k;
       loading := loading k; showBoardDialog := v;
       showCardDialog := showCardDialog k;
       selectedBoardId := selectedBoardId k; newBoard := newBoard k;
       newCard := newCard k |})).

Definition setShowCardDialog (v : bool) : M unit :=
  modify (with_kanban (fun k =>
    {| projectId := projectId k; boards := boards k; cards := cards k;
       loading := loading k; showBoardDialog := showBoardDialog k;
       showCardDialog := v;
       selectedBoardId := selectedBoardId k; newBoard := newBoard k;
       newCard := newCard k |})).

Definition setSelectedBoardId (v : jsstring) : M unit :=
  modify (with_kanban (fun k =>
    {| projectId := projectId k; boards := boards k; cards := cards k;
       loading := loading k; showBoardDialog := showBoardDialog k;
       showCardDialog := showCardDialog k;
       selectedBoardId := v; newBoard := newBoard k;
       newCard := newCard k |})).

Definition setNewBoard (v : jsstring) : M unit :=
  modify (with_kanban (fun k =>
    {| projectId := projectId k; boards := boards k; cards := cards k;
       loading := loading k; showBoardDialog := showBoardDialog k;
       showCardDialog := showCardDialog k;
       selectedBoardId := selectedBoardId k; newBoard := v;
       newCard := newCard k |})).

Definition setNewCard (v : NewCard) : M unit :=
  modify (with_kanban (fun k =>
    {| projectId := projectId k; boards := boards k; cards := cards k;
       loading := loading k; showBoardDialog := showBoardDialog k;
       showCardDialog := showCardDialog k;
       selectedBoardId := selectedBoardId k; newBoard := newBoard k;
       newCard := v |})).

Definition setTags (v : list jsstring) : M unit :=
  modify (with_modal (fun m =>
    {| card := card m; tags := v; newTag := newTag m |})).

Definition setNewTag (v : jsstring) : M unit :=
  modify (with_modal (fun m =>
    {| card := card m; tags := tags m; newTag := v |})).

Definition toast (title description : string) (destructive : bool) : M unit :=
  modify (emit (Toast title description destructive)).

Definition console_error (context : string) : M unit :=
  modify (emit (ConsoleError context)).

(** ** [KanbanBoard] *)

(** [cards[b] || []] *)
Definition cardsOf (cs : gmap jsstring (list CardData.t)) (b : jsstring) :
  list CardData.t :=
  default [] (cs !! b).

(** The body of the [forEach] that groups the fetched cards by board. *)
Definition pushCard (cardsByBoard : gmap jsstring (list CardData.t))
  (c : CardData.t) : gmap jsstring (list CardData.t) :=
  <[CardData.board_id c := cardsOf cardsByBoard (CardData.board_id c) ++ [c]]>
    cardsByBoard.

Definition fetchBoards : M unit :=
  try_catch
    (w <- get ;;
     boardsReply <- select_boards (projectId (kanban w)) ;;
     boardsData <- orThrow boardsReply ;;
     cardsReply <- select_cards (Board.id <$> boardsData) ;;
     cardsData <- orThrow cardsReply ;;
     setBoards boardsData ;;
     setCards (foldl pushCard ∅ cardsData))
    (fun _ => console_error "Error fetching boards:") ;;
  setLoading false.

(** [a.splice(i, 0, x)] for an index that is not negative: the insertion
    point is clamped to the length. *)
Definition splice_in {A} (i : nat) (x : A) (l : list A) : list A :=
  take i l ++ x :: drop i l.

Definition positionPatch (i : nat) : CardPatch :=
  {| p_board_id := None; p_position := Some (Z.of_nat i); p_tags := None |}.

Definition movePatch (b : jsstring) (i : nat) : CardPatch :=
  {| p_board_id := Some b; p_position := Some (Z.of_nat i); p_tags := None |}.

(** [l.map((card, index) => ({ id: card.id, position: index }))] *)
Definition updatesOf (l : list CardData.t) : list (jsstring * nat) :=
  imap (fun i c => (CardData.id c, i)) l.

(** The optimistic rearrangement of [handleDragEnd]: the new [cards]
    object with the final destination and source arrays, or [None] when
    nothing sits at the source index (there [movedCard] is [undefined] and
    the assignment to its [board_id] throws).  When both boards are the
    same, [destCards] and [sourceCards] are one array. *)
Definition rearrange (cs : gmap jsstring (list CardData.t))
  (src dst : Location) :
  option (gmap jsstring (list CardData.t) * list CardData.t * list CardData.t) :=
  let sourceBoard := droppableId src in
  let destBoard := droppableId dst in
  let sourceCards := cardsOf cs sourceBoard in
  match sourceCards !! index src with
  | None => None
  | Some c =>
      let movedCard := CardData.set_board_id destBoard c in
      let sourceCards := delete (index src) sourceCards in
      let destCards :=
        if decide (sourceBoard = destBoard) then sourceCards
        else cardsOf cs destBoard in
      let destCards := splice_in (index dst) movedCard destCards in
      let sourceCards :=
        if decide (sourceBoard = destBoard) then destCards else sourceCards in
      Some (<[destBoard := destCards]> (<[sourceBoard := sourceCards]> cs),
            destCards, sourceCards)
  end.

(** The awaited writes inside the [try] block. *)
Definition persistMove (cardId sourceBoard destBoard : jsstring)
  (destIndex : nat) (destCards sourceCards : list CardData.t) : M unit :=
  update_cards cardId (movePatch destBoard destIndex) ;;
  for_of (updatesOf destCards) (fun u =>
    if decide (u.1 ≠ cardId)
    then update_cards u.1 (positionPatch u.2) ;; ret tt
    else ret tt) ;;
  if decide (sourceBoard ≠ destBoard)
  then for_of (updatesOf sourceCards) (fun u =>
         update_cards u.1 (positionPatch u.2) ;; ret tt)
  else ret tt.

(** The handler up to its first [await]: the two early returns, then the
    block commented "Update local state immediately for better UX".  It
    yields the arrays the remaining part works on, or [None] after an early
    return. *)
Definition handleDragEnd_local (result : DropResult) :
  M (option (list CardData.t * list CardData.t)) :=
  match destination result with
  | None => ret None
  | Some dst =>
      let src := source result in
      if decide (droppableId dst = droppableId src ∧ index dst = index src)
      then ret None
      else
        w <- get ;;
        match rearrange (cards (kanban w)) src dst with
        | None =>
            throw (Error "TypeError: Cannot set properties of undefined")
        | Some (newCards, destCards, sourceCards) =>
            setCards newCards ;;
            ret (Some (destCards, sourceCards))
        end
  end.

(** The [try] / [catch] that follows.  [fetchBoards()] is not awaited in
    the source; its effect on the state is the same. *)
Definition handleDragEnd_persist (result : DropResult) (dst : Location)
  (destCards sourceCards : list CardData.t) : M unit :=
  try_catch
    (persistMove (draggableId result) (droppableId (source result))
       (droppableId dst) (index dst) destCards sourceCards)
    (fun _ =>
       console_error "Error updating card position:" ;;
       fetchBoards ;;
       toast "Error" "Failed to move card. Please try again." true).

Definition handleDragEnd (result : DropResult) : M unit :=
  plan <- handleDragEnd_local result ;;
  match plan, destination result with
  | Some (destCards, sourceCards), Some dst =>
      handleDragEnd_persist result dst destCards sourceCards
  | _, _ => ret tt
  end.

(** Creation goes through the store's key generator, which the client does
    not control: [gen_random_uuid n] is the key given to the [n]-th
    inserted row. *)
Section Creation.
Variable gen_random_uuid : nat -> jsstring.

(** [.insert([row]).select().single()]: the stored row comes back with
    its generated key; a key already in use is refused by the store. *)
Definition insertBoard (row : BoardRow) (s : Store) : Reply Board.t * Store :=
  let k := gen_random_uuid (serial s) in
  match boards_tbl s !! k with
  | Some _ => (PgError "duplicate key value violates unique constraint", s)
  | None =>
      (Data (toBoard k row),
       {| boards_tbl := <[k := row]> (boards_tbl s);
          cards_tbl := cards_tbl s;
          serial := S (serial s) |})
  end.

Definition insertCard (row : CardRow) (s : Store) : Reply CardData.t * Store :=
  let k := gen_random_uuid (serial s) in
  match cards_tbl s !! k with
  | Some _ => (PgError "duplicate key value violates unique constraint", s)
  | None =>
      (Data (toCard k row),
       {| boards_tbl := boards_tbl s;
          cards_tbl := <[k := row]> (cards_tbl s);
          serial := S (serial s) |})
  end.

Definition insert_boards (row : BoardRow) : M (Reply Board.t) :=
  request (InsertBoard row) (insertBoard row).

Definition insert_cards (row : CardRow) : M (Reply CardData.t) :=
  request (InsertCard row) (insertCard row).

Definition createBoard : M unit :=
  w <- get ;;
  let k := kanban w in
  if negb (truthy (trim (newBoard k))) then ret tt
  else
    try_catch
      (reply <- insert_boards
                  {| br_name := newBoard k;
                     br_project_id := projectId k;
                     br_position := Z.of_nat (length (boards k)) |} ;;
       data <- orThrow reply ;;
       setBoards (boards k ++ [data]) ;;
       setNewBoard [] ;;
       setShowBoardDialog false ;;
       toast "Success" "Board created successfully!" false)
      (fun e => toast "Error" (message_of e) true).

Definition createCard : M unit :=
  w <- get ;;
  let k := kanban w in
  if negb (truthy (trim (nc_title (newCard k))))
     || negb (truthy (selectedBoardId k))
  then ret tt
  else
    try_catch
      (let boardCards := cardsOf (cards k) (selectedBoardId k) in
       reply <- insert_cards
                  {| cr_title := nc_title (newCard k);
                     cr_description :=
                       if truthy (nc_description (newCard k))
                       then Some (nc_description (newCard k)) else None;
                     cr_priority := nc_priority (newCard k);
                     cr_position := Z.of_nat (length boardCards);
                     cr_board_id := selectedBoardId k;
                     cr_tags := [];
                     cr_due_date := None |} ;;
       data <- orThrow reply ;;
       setCards (<[selectedBoardId k := boardCards ++ [data]]> (cards k)) ;;
       setNewCard {| nc_title := []; nc_description := [];
                     nc_priority := medium |} ;;
       setShowCardDialog false ;;
       setSelectedBoardId [] ;;
       toast "Success" "Card created successfully!" false)
      (fun e => toast "Error" (message_of e) true).
End Creation.

(** ** [CardDetailModal] *)

Definition tagsPatch (ts : list jsstring) : CardPatch :=
  {| p_board_id := None; p_position := None; p_tags := Some ts |}.

(** The modal is mounted with [onCardUpdate={fetchBoards}]. *)
Definition onCardUpdate : M unit := fetchBoards.

Definition updateCardTags (newTags : list jsstring) : M unit :=
  try_catch
    (w <- get ;;
     reply <- update_cards (CardData.id (card (modal w))) (tagsPatch newTags) ;;
     orThrow reply ;;
     onCardUpdate)
    (fun e => toast "Error" (message_of e) true).

Definition addTag : M unit :=
  w <- get ;;
  let m := modal w in
  if negb (truthy (trim (newTag m))) || bool_decide (newTag m ∈ tags m)
  then ret tt
  else
    let updatedTags := tags m ++ [newTag m] in
    setTags updatedTags ;;
    updateCardTags updatedTags ;;
    setNewTag [].

Definition removeTag (tagToRemove : jsstring) : M unit :=
  w <- get ;;
  let updatedTags := filter (fun tag => tag ≠ tagToRemove) (tags (modal w)) in
  setTags updatedTags ;;
  updateCardTags updatedTags.

(** ** Sample worlds *)

Definition sampleCard (k b : string) (pos : Z) : CardData.t :=
  CardData.mk (js k) (js k) None medium pos (js b) [] None.

Definition sampleRow (k b : string) (pos : Z) : CardRow :=
  {| cr_title := js k; cr_description := None; cr_priority := medium;
     cr_position := pos; cr_board_id := js b; cr_tags := [];
     cr_due_date := None |}.

Definition sampleKanban (bs : list Board.t)
  (cs : gmap jsstring (list CardData.t)) : Kanban :=
  {| projectId := js "proj"; boards := bs; cards := cs; loading := false;
     showBoardDialog := false; showCardDialog := false;
     selectedBoardId := []; newBoard := [];
     newCard := {| nc_title := []; nc_description := [];
                   nc_priority := medium |} |}.

Definition sampleModal : Modal :=
  {| card := sampleCard "X" "B" 0; tags := []; newTag := [] |}.

Definition sampleWorld (bs : list Board.t)
  (cs : gmap jsstring (list CardData.t)) (tbl : gmap jsstring CardRow)
  (fs : list Outcome) : World :=
  {| kanban := sampleKanban bs cs;
     modal := sampleModal;
     db := {| boards_tbl :=
                list_to_map
                  ((fun b => (Board.id b,
                              {| br_name := Board.name b;
                                 br_project_id := js "proj";
                                 br_position := Board.position b |})) <$> bs);
              cards_tbl := tbl; serial := 0 |};
     faults := fs;
     log := [] |}.

(** Board [B] holding [X; Y; Z]. *)
Definition oneBoard (fs : list Outcome) : World :=
  sampleWorld [Board.mk (js "B") (js "Doing") 0]
    {[ js "B" := [sampleCard "X" "B" 0; sampleCard "Y" "B" 1;
                  sampleCard "Z" "B" 2] ]}
    (list_to_map [(js "X", sampleRow "X" "B" 0); (js "Y", sampleRow "Y" "B" 1);
                  (js "Z", sampleRow "Z" "B" 2)])
    fs.

(** Board [A] holding [P; Q] and board [B] holding [R]. *)
Definition twoBoards (fs : list Outcome) : World :=
  sampleWorld [Board.mk (js "A") (js "To do") 0; Board.mk (js "B") (js "Doing") 1]
    {[ js "A" := [sampleCard "P" "A" 0; sampleCard "Q" "A" 1];
       js "B" := [sampleCard "R" "B" 0] ]}
    (list_to_map [(js "P", sampleRow "P" "A" 0); (js "Q", sampleRow "Q" "A" 1);
                  (js "R", sampleRow "R" "B" 0)])
    fs.

Definition drag (k a : string) (i : nat) (b : string) (j : nat) : DropResult :=
  {| destination := Some {| droppableId := js b; index := j |};
     source := {| droppableId := js a; index := i |};
     draggableId := js k |}.

(** * Vocabulary of the properties *)

(** No pending request is scripted to reject. *)
Definition noReject (fs : list Outcome) : Prop :=
  Forall (fun o => forall m, o ≠ Rejected m) fs.

(** Every pending request is scripted to succeed. *)
Definition allDone (fs : list Outcome) : Prop := Forall (eq Done) fs.

(** One awaited [update] of the [cards] table whose reply is dropped. *)
Definition write (u : jsstring * CardPatch) : M unit :=
  update_cards u.1 u.2 ;; ret tt.

(** The world after such a write that did not reject. *)
Definition stepWrite (w : World) (u : jsstring * CardPatch) : World :=
  {| kanban := kanban w;
     modal := modal w;
     db := match faults w with
           | [] | Done :: _ => updateCard u.1 u.2 (db w)
           | _ => db w
           end;
     faults := tail (faults w);
     log := log w ++ [Sent (UpdateCard u.1 u.2)] |}.

Definition settle (ws : list (jsstring * CardPatch)) (w : World) : World :=
  foldl stepWrite w ws.

Definition toWrite (u : jsstring * nat) : jsstring * CardPatch :=
  (u.1, positionPatch u.2).

(** The writes of one move, in the order they are awaited. *)
Definition moveWrites (cardId sourceBoard destBoard : jsstring)
  (destIndex : nat) (destCards sourceCards : list CardData.t) :
  list (jsstring * CardPatch) :=
  (cardId, movePatch destBoard destIndex)
  :: (toWrite <$> filter (fun u => u.1 ≠ cardId) (updatesOf destCards))
  ++ (if decide (sourceBoard ≠ destBoard)
      then toWrite <$> updatesOf sourceCards else []).

(** The table after a list of writes that all succeed. *)
Definition applyWrites (ws : list (jsstring * CardPatch))
  (tbl : gmap jsstring CardRow) : gmap jsstring CardRow :=
  foldl (fun t u => alter (applyPatch u.2) u.1 t) tbl ws.

Definition isNoop (src dst : Location) : Prop :=
  droppableId dst = droppableId src ∧ index dst = index src.

(** The keys of the cards of an array, in order. *)
Definition ids (l : list CardData.t) : list jsstring := CardData.id <$> l.

(** The displayed arrays and the [cards] table describe the same
    arrangement: the card shown at index [i] of board [b] is stored on
    board [b] at position [i], and every stored card of a board of the
    project ([bs]) is shown at its stored position. *)
Definition inSync (bs : list jsstring)
  (cs : gmap jsstring (list CardData.t)) (tbl : gmap jsstring CardRow) : Prop :=
  (forall b i c, cardsOf cs b !! i = Some c ->
     exists r, tbl !! CardData.id c = Some r
               ∧ cr_board_id r = b ∧ cr_position r = Z.of_nat i)
  ∧ (forall k r, tbl !! k = Some r -> cr_board_id r ∈ bs ->
       exists i c, cardsOf cs (cr_board_id r) !! i = Some c
                   ∧ CardData.id c = k ∧ cr_position r = Z.of_nat i).

(** The boards of the project on display. *)
Definition scope (w : World) : list jsstring := Board.id <$> boards (kanban w).

Definition synced (w : World) : Prop :=
  inSync (scope w) (cards (kanban w)) (cards_tbl (db w)).

(** The array the dragged card lands in, before it is inserted. *)
Definition landing (cs : gmap jsstring (list CardData.t)) (src dst : Location) :
  list CardData.t :=
  if decide (droppableId src = droppableId dst)
  then delete (index src) (cardsOf cs (droppableId src))
  else cardsOf cs (droppableId dst).

(** What the drag-and-drop library reports for the arrays on display: the
    dragged card is the one at the source index, and a destination index
    lies within the landing array. *)
Definition validDrag (w : World) (result : DropResult) : Prop :=
  (exists c,
     cardsOf (cards (kanban w)) (droppableId (source result))
       !! index (source result) = Some c
     ∧ CardData.id c = draggableId result)
  ∧ (forall dst, destination result = Some dst ->
       (index dst <= length (landing (cards (kanban w)) (source result) dst))%nat).

(** One run of the handler on a valid drag in which every write succeeds. *)
Inductive moved : World -> World -> Prop :=
| moved_by result w :
    validDrag w result ->
    allDone (faults w) ->
    moved w (exec (handleDragEnd result) w).

(** The stored cards of a board. *)
Definition boardRows (tbl : gmap jsstring CardRow) (b : jsstring) :
  list (jsstring * CardRow) :=
  filter (fun kr => cr_board_id kr.2 = b) (map_to_list tbl).

(** The stored positions of the cards of board [b] are [0 .. count-1],
    each once. *)
Definition densePositions (tbl : gmap jsstring CardRow) (b : jsstring) : Prop :=
  (fun kr => cr_position kr.2) <$> boardRows tbl b
  ≡ₚ Z.of_nat <$> seq 0 (length (boardRows tbl b)).

Definition positionOf (tbl : gmap jsstring CardRow) (k : jsstring) : Z :=
  default 0 (cr_position <$> tbl !! k).

Ltac sync_rows :=
  repeat match goal with
  | H : <[_ := _]> _ !! _ = Some _ |- _ =>
      apply lookup_insert_Some in H as [[<- <-]|[_ H]]
  | H : ∅ !! _ = Some _ |- _ => by rewrite lookup_empty in H
  end.

(** The row of card [k] is stored on board [b] at position [i]. *)
Definition storedAt (tbl : gmap jsstring CardRow) (k b : jsstring) (i : Z) : Prop :=
  exists r, tbl !! k = Some r ∧ cr_board_id r = b ∧ cr_position r = i.

(** The next request is applied by the store. *)
Definition nextDone (w : World) : Prop := default Done (head (faults w)) = Done.

(** A world with both creation dialogs filled in. *)
Definition formWorld : World :=
  {| kanban :=
       {| projectId := js "proj";
          boards := boards (kanban (oneBoard []));
          cards := cards (kanban (oneBoard []));
          loading := false; showBoardDialog := true; showCardDialog := true;
          selectedBoardId := js "B"; newBoard := js "Done";
          newCard := {| nc_title := js "Write report"; nc_description := [];
                        nc_priority := high |} |};
     modal := sampleModal;
     db := db (oneBoard []);
     faults := [];
     log := [] |}.

Definition sampleUuid (n : nat) : jsstring := js "row-" ++ [N.of_nat n].

(** From [w] to [w'] the modal is untouched and the trace only grows. *)
Definition onward (w w' : World) : Prop :=
  modal w' = modal w ∧ exists rest, log w' = log w ++ rest.

(** A computation that leaves the modal alone, whatever the outcomes. *)
Definition tame {A} (m : M A) : Prop := forall w, onward w (m w).2.

(** The guard of [addTag]. *)
Definition tagRefused (m : Modal) : bool :=
  negb (truthy (trim (newTag m))) || bool_decide (newTag m ∈ tags m).

(** The modal open on card [X] with tags [ts] and [t] typed in. *)
Definition tagWorld (ts : list jsstring) (t : jsstring) (fs : list Outcome) :
  World :=
  {| kanban := kanban (oneBoard fs);
     modal := {| card := sampleCard "X" "B" 0; tags := ts; newTag := t |};
     db := db (oneBoard fs);
     faults := fs;
     log := [] |}.

(** The next two requests are applied by the store. *)
Definition nextTwoDone (w : World) : Prop :=
  nextDone w ∧ default Done (head (tail (faults w))) = Done.

(** The world [fetchBoards] leaves when both of its reads are answered. *)
Definition fetched (w : World) : World :=
  let bs := selectBoards (projectId (kanban w)) (db w) in
  {| kanban :=
       {| projectId := projectId (kanban w);
          boards := bs;
          cards := foldl pushCard ∅ (selectCards (Board.id <$> bs) (db w));
          loading := false;
          showBoardDialog := showBoardDialog (kanban w);
          showCardDialog := showCardDialog (kanban w);
          selectedBoardId := selectedBoardId (kanban w);
          newBoard := newBoard (kanban w);
          newCard := newCard (kanban w) |};
     modal := modal w;
     db := db w;
     faults := tail (tail (faults w));
     log := log w
            ++ [Sent (SelectBoards (projectId (kanban w)));
                Sent (SelectCards (Board.id <$> bs))] |}.

(** A computation that returns normally from every world. *)
Definition safe {A} (m : M A) : Prop :=
  forall w, exists a w', m w = (Ret a, w').



(** The row [createCard] asks the store to insert. *)
Definition newCardRow (w : World) : CardRow :=
  let k := kanban w in
  {| cr_title := nc_title (newCard k);
     cr_description :=
       if truthy (nc_description (newCard k))
       then Some (nc_description (newCard k)) else None;
     cr_priority := nc_priority (newCard k);
     cr_position :=
       Z.of_nat (length (cardsOf (cards k) (selectedBoardId k)));
     cr_board_id := selectedBoardId k;
     cr_tags := [];
     cr_due_date := None |}.

(** The world [createCard] leaves when the insert is accepted under the key
    [key]. *)
Definition createdCard (key : jsstring) (w : World) : World :=
  let k := kanban w in
  let b := selectedBoardId k in
  {| kanban :=
       {| projectId := projectId k;
          boards := boards k;
          cards := <[b := cardsOf (cards k) b ++ [toCard key (newCardRow w)]]>
                     (cards k);
          loading := loading k;
          showBoardDialog := showBoardDialog k;
          showCardDialog := false;
          selectedBoardId := [];
          newBoard := newBoard k;
          newCard := {| nc_title := []; nc_description := [];
                        nc_priority := medium |} |};
     modal := modal w;
     db := {| boards_tbl := boards_tbl (db w);
              cards_tbl := <[key := newCardRow w]> (cards_tbl (db w));
              serial := S (serial (db w)) |};
     faults := tail (faults w);
     log := log w
            ++ [Sent (InsertCard (newCardRow w));
                Toast "Success" "Card created successfully!" false] |}.

(** The form of [createCard] passes its validation. *)
Definition cardFormValid (w : World) : Prop :=
  truthy (trim (nc_title (newCard (kanban w)))) = true
  ∧ truthy (selectedBoardId (kanban w)) = true.

(** One step of work on the board view whose requests all succeed: a move
    on a valid drag, or the creation of a card under a fresh key. *)
Inductive edited (gen_random_uuid : nat -> jsstring) : World -> World -> Prop :=
| edited_move result w :
    validDrag w result ->
    allDone (faults w) ->
    edited gen_random_uuid w (exec (handleDragEnd result) w)
| edited_card w :
    cardFormValid w ->
    nextDone w ->
    cards_tbl (db w) !! gen_random_uuid (serial (db w)) = None ->
    edited gen_random_uuid w (exec (createCard gen_random_uuid) w).

(** * Properties *)

(** ** Running position writes *)

Lemma allDone_noReject fs : allDone fs -> noReject fs.
Proof.
  intros H. eapply Forall_impl; [exact H|]. intros o <- m. discriminate.
Qed.

Lemma write_run u w :
  noReject (faults w) -> write u w = (Ret tt, stepWrite w u).
Proof.
  intros Hf. unfold write, update_cards, request, bind, modify, outcome,
    stepWrite, ret. simpl.
  destruct (faults w) as [|o fs] eqn:E; simpl.
  { unfold with_db, emit. simpl. by rewrite E. }
  destruct o as [|m|m]; unfold with_db, with_faults, emit, throw; simpl;
    try done.
  inversion Hf as [|? ? Ho _]; subst. by destruct (Ho m).
Qed.

Lemma noReject_tail fs : noReject fs -> noReject (tail fs).
Proof. destruct fs; [done|]. by inversion 1. Qed.

Lemma allDone_tail fs : allDone fs -> allDone (tail fs).
Proof. destruct fs; [done|]. by inversion 1. Qed.

Lemma settle_noReject ws w :
  noReject (faults w) -> noReject (faults (settle ws w)).
Proof.
  revert w. induction ws as [|u ws IH]; intros w Hf; [done|].
  apply IH. simpl. by apply noReject_tail.
Qed.

Lemma settle_allDone ws w :
  allDone (faults w) -> allDone (faults (settle ws w)).
Proof.
  revert w. induction ws as [|u ws IH]; intros w Hf; [done|].
  apply IH. simpl. by apply allDone_tail.
Qed.

Lemma settle_app ws1 ws2 w : settle (ws1 ++ ws2) w = settle ws2 (settle ws1 w).
Proof. apply foldl_app. Qed.

Lemma settle_cons u ws w : settle (u :: ws) w = settle ws (stepWrite w u).
Proof. done. Qed.

Lemma settle_kanban ws w : kanban (settle ws w) = kanban w.
Proof.
  revert w. induction ws as [|u ws IH]; intros w; [done|].
  by rewrite settle_cons, IH.
Qed.

Lemma settle_modal ws w : modal (settle ws w) = modal w.
Proof.
  revert w. induction ws as [|u ws IH]; intros w; [done|].
  by rewrite settle_cons, IH.
Qed.

Lemma settle_log ws w :
  log (settle ws w) = log w ++ ((fun u => Sent (UpdateCard u.1 u.2)) <$> ws).
Proof.
  revert w. induction ws as [|u ws IH]; intros w.
  - simpl. by rewrite app_nil_r.
  - rewrite settle_cons, IH. simpl. by rewrite <- app_assoc.
Qed.

Lemma settle_boards_tbl ws w :
  boards_tbl (db (settle ws w)) = boards_tbl (db w).
Proof.
  revert w. induction ws as [|u ws IH]; intros w; [done|].
  rewrite settle_cons, IH. simpl.
  by destruct (faults w) as [|[] ?].
Qed.

Lemma settle_cards_tbl ws w :
  allDone (faults w) ->
  cards_tbl (db (settle ws w)) = applyWrites ws (cards_tbl (db w)).
Proof.
  revert w. induction ws as [|u ws IH]; intros w Hf; [done|].
  rewrite settle_cons, IH.
  - simpl. destruct (faults w) as [|o fs]; [done|].
    inversion Hf; subst. done.
  - simpl. by apply allDone_tail.
Qed.

Lemma for_of_writes ws w :
  noReject (faults w) -> for_of ws write w = (Ret tt, settle ws w).
Proof.
  revert w. induction ws as [|u ws IH]; intros w Hf; [done|].
  simpl. unfold bind. rewrite write_run by done.
  apply IH. simpl. by apply noReject_tail.
Qed.

Lemma for_of_others cardId (us : list (jsstring * nat)) w :
  noReject (faults w) ->
  for_of us (fun u =>
    if decide (u.1 ≠ cardId)
    then update_cards u.1 (positionPatch u.2) ;; ret tt
    else ret tt) w
  = (Ret tt, settle (toWrite <$> filter (fun u => u.1 ≠ cardId) us) w).
Proof.
  revert w. induction us as [|u us IH]; intros w Hf; [done|].
  simpl. rewrite filter_cons. destruct (decide (u.1 ≠ cardId)) as [Hne|Heq].
  - simpl. unfold bind at 1.
    change (update_cards u.1 (positionPatch u.2);; ret tt) with (write (toWrite u)).
    rewrite write_run by done.
    apply IH. simpl. by apply noReject_tail.
  - unfold bind at 1. simpl. by apply IH.
Qed.

Lemma for_of_all (us : list (jsstring * nat)) w :
  noReject (faults w) ->
  for_of us (fun u => update_cards u.1 (positionPatch u.2) ;; ret tt) w
  = (Ret tt, settle (toWrite <$> us) w).
Proof.
  revert w. induction us as [|u us IH]; intros w Hf; [done|].
  simpl. unfold bind at 1.
  change (update_cards u.1 (positionPatch u.2);; ret tt) with (write (toWrite u)).
  rewrite write_run by done.
  apply IH. simpl. by apply noReject_tail.
Qed.

(** With no rejection pending, the [try] block runs to its end and leaves
    the world [settle]d by [moveWrites]. *)
Lemma persistMove_run cardId sB dB di dC sC w :
  noReject (faults w) ->
  persistMove cardId sB dB di dC sC w
  = (Ret tt, settle (moveWrites cardId sB dB di dC sC) w).
Proof.
  intros Hf. unfold persistMove, moveWrites.
  change (?x :: ?l1 ++ ?l2) with ([x] ++ l1 ++ l2).
  rewrite !settle_app.
  unfold bind at 1.
  pose proof (write_run (cardId, movePatch dB di) w Hf) as Hw.
  unfold write, bind in Hw. simpl in Hw.
  destruct (update_cards cardId (movePatch dB di) w) as [[a|e] w1] eqn:E;
    [|discriminate].
  injection Hw as ->.
  unfold bind at 1. rewrite for_of_others.
  2:{ simpl. by apply noReject_tail. }
  destruct (decide (sB ≠ dB)).
  - rewrite for_of_all; [done|]. apply settle_noReject. simpl.
    by apply noReject_tail.
  - done.
Qed.

(** ** The drag handler, phase by phase *)

Lemma handleDragEnd_local_run result dst newCards destCards sourceCards w :
  destination result = Some dst ->
  ¬ isNoop (source result) dst ->
  rearrange (cards (kanban w)) (source result) dst
    = Some (newCards, destCards, sourceCards) ->
  handleDragEnd_local result w
  = (Ret (Some (destCards, sourceCards)), exec (setCards newCards) w).
Proof.
  intros Hd Hn Hr. unfold handleDragEnd_local. rewrite Hd.
  destruct (decide _) as [H|_]; [by destruct Hn|].
  unfold bind, get. by rewrite Hr.
Qed.

Lemma handleDragEnd_run result dst newCards destCards sourceCards w :
  destination result = Some dst ->
  ¬ isNoop (source result) dst ->
  rearrange (cards (kanban w)) (source result) dst
    = Some (newCards, destCards, sourceCards) ->
  noReject (faults w) ->
  handleDragEnd result w
  = (Ret tt,
     settle (moveWrites (draggableId result) (droppableId (source result))
               (droppableId dst) (index dst) destCards sourceCards)
            (exec (setCards newCards) w)).
Proof.
  intros Hd Hn Hr Hf. unfold handleDragEnd, bind.
  rewrite (handleDragEnd_local_run _ _ _ _ _ _ Hd Hn Hr), Hd.
  unfold handleDragEnd_persist, try_catch.
  by rewrite persistMove_run.
Qed.

(** A drop on the very place the card came from leaves the world as it
    was. *)
Lemma handleDragEnd_same_place result dst w :
  destination result = Some dst ->
  isNoop (source result) dst ->
  handleDragEnd result w = (Ret tt, w).
Proof.
  intros Hd Hn. unfold handleDragEnd, handleDragEnd_local, bind.
  rewrite Hd. by rewrite decide_True.
Qed.

(** ** The rearranged arrays *)

Lemma rearrange_same cs b i j c :
  cardsOf cs b !! i = Some c ->
  let l := splice_in j (CardData.set_board_id b c) (delete i (cardsOf cs b)) in
  rearrange cs {| droppableId := b; index := i |}
               {| droppableId := b; index := j |}
  = Some (<[b := l]> cs, l, l).
Proof.
  intros Hc l. unfold rearrange. simpl. rewrite Hc.
  rewrite !decide_True by done. by rewrite insert_insert_eq.
Qed.

Lemma rearrange_cross cs a b i j c :
  a ≠ b ->
  cardsOf cs a !! i = Some c ->
  rearrange cs {| droppableId := a; index := i |}
               {| droppableId := b; index := j |}
  = Some (<[b := splice_in j (CardData.set_board_id b c) (cardsOf cs b)]>
            (<[a := delete i (cardsOf cs a)]> cs),
          splice_in j (CardData.set_board_id b c) (cardsOf cs b),
          delete i (cardsOf cs a)).
Proof.
  intros Hab Hc. unfold rearrange. simpl. rewrite Hc.
  by rewrite !decide_False by done.
Qed.

Lemma splice_in_length {A} i (x : A) l : length (splice_in i x l) = S (length l).
Proof.
  unfold splice_in. rewrite length_app. simpl.
  rewrite length_take, length_drop. lia.
Qed.

Lemma splice_in_Permutation {A} i (x : A) l : splice_in i x l ≡ₚ x :: l.
Proof.
  unfold splice_in. rewrite <- Permutation_middle. by rewrite take_drop.
Qed.

Lemma splice_in_lookup {A} i (x : A) l :
  (i <= length l)%nat -> splice_in i x l !! i = Some x.
Proof.
  intros Hi. unfold splice_in. apply list_lookup_middle.
  rewrite length_take. lia.
Qed.

Lemma elem_of_updatesOf l k i :
  (k, i) ∈ updatesOf l ↔ ∃ c, l !! i = Some c ∧ CardData.id c = k.
Proof.
  unfold updatesOf. rewrite elem_of_lookup_imap. split.
  - intros (j & c & [= -> ->] & Hc). eauto.
  - intros (c & Hc & <-). eauto.
Qed.

(** ** The table after the writes of a move *)

Lemma applyWrites_cons u ws tbl :
  applyWrites (u :: ws) tbl = applyWrites ws (alter (applyPatch u.2) u.1 tbl).
Proof. done. Qed.

Lemma applyWrites_lookup_ne ws tbl k :
  k ∉ ws.*1 -> applyWrites ws tbl !! k = tbl !! k.
Proof.
  revert tbl. induction ws as [|[k' p] ws IH]; intros tbl Hk; [done|].
  rewrite fmap_cons, not_elem_of_cons in Hk. destruct Hk as [Hne Hk].
  rewrite applyWrites_cons, IH by done. cbn [fst snd] in *.
  by apply lookup_alter_ne.
Qed.

Lemma applyWrites_lookup ws tbl k p :
  NoDup ws.*1 -> (k, p) ∈ ws ->
  applyWrites ws tbl !! k = applyPatch p <$> tbl !! k.
Proof.
  revert tbl. induction ws as [|[k' p'] ws IH]; intros tbl Hnd Hin.
  - by apply not_elem_of_nil in Hin.
  - rewrite applyWrites_cons. rewrite fmap_cons in Hnd. cbn [fst snd] in *.
    apply NoDup_cons in Hnd as [Hk' Hnd].
    apply elem_of_cons in Hin as [[= -> ->]|Hin].
    + rewrite applyWrites_lookup_ne by done. apply lookup_alter_eq.
    + rewrite IH by done. rewrite lookup_alter_ne; [done|]. intros ->.
      apply Hk'. apply list_elem_of_fmap. by exists (k, p).
Qed.

Lemma updatesOf_fst l : (updatesOf l).*1 = CardData.id <$> l.
Proof. unfold updatesOf. rewrite fmap_imap. apply imap_const. Qed.

Lemma toWrite_fst us : (toWrite <$> us).*1 = us.*1.
Proof. by rewrite <- list_fmap_compose. Qed.

Lemma others_keys cardId l k :
  k ∈ (toWrite <$> filter (fun u => u.1 ≠ cardId) (updatesOf l)).*1
  ↔ k ≠ cardId ∧ k ∈ CardData.id <$> l.
Proof.
  rewrite toWrite_fst, <- updatesOf_fst, !list_elem_of_fmap. split.
  - intros ([k' i] & -> & [Hne Hin]%list_elem_of_filter). split; [done|].
    by exists (k', i).
  - intros (Hne & [k' i] & -> & Hin). exists (k', i). split; [done|].
    by apply list_elem_of_filter.
Qed.

Lemma others_keys_NoDup cardId l :
  NoDup (CardData.id <$> l) ->
  NoDup (toWrite <$> filter (fun u => u.1 ≠ cardId) (updatesOf l)).*1.
Proof.
  intros Hnd. rewrite toWrite_fst. rewrite <- updatesOf_fst in Hnd.
  apply (sublist_NoDup _ _ Hnd).
  apply fmap_sublist, sublist_filter.
Qed.

Section MoveWrites.
Context (cardId sB dB : jsstring) (di : nat) (dC sC : list CardData.t).
Context (tbl : gmap jsstring CardRow).

Local Abbreviation ws := (moveWrites cardId sB dB di dC sC).

(** The moved card is not among the remaining source cards, no card
    sits in both arrays, and neither array holds a key twice. *)
Hypothesis dest_NoDup : NoDup (CardData.id <$> dC).
Hypothesis source_NoDup : sB ≠ dB -> NoDup (CardData.id <$> sC).
Hypothesis source_fresh : sB ≠ dB -> cardId ∉ CardData.id <$> sC.
Hypothesis disjoint :
  sB ≠ dB -> forall k, k ∈ CardData.id <$> dC -> k ∉ CardData.id <$> sC.

Lemma moveWrites_NoDup : NoDup ws.*1.
Proof using dest_NoDup source_NoDup source_fresh disjoint.
  unfold ws, moveWrites. rewrite fmap_cons, fmap_app. simpl.
  apply NoDup_cons. split.
  - rewrite elem_of_app, others_keys. intros [[? _]|Hin]; [done|].
    destruct (decide (sB ≠ dB)) as [Hne|]; [|by apply not_elem_of_nil in Hin].
    rewrite toWrite_fst, updatesOf_fst in Hin. by apply source_fresh.
  - apply NoDup_app. split; [by apply others_keys_NoDup|]. split.
    + intros k [_ Hk]%others_keys Hin.
      destruct (decide (sB ≠ dB)) as [Hne|]; [|by apply not_elem_of_nil in Hin].
      rewrite toWrite_fst, updatesOf_fst in Hin. by eapply disjoint.
    + destruct (decide (sB ≠ dB)) as [Hne|]; [|constructor].
      rewrite toWrite_fst, updatesOf_fst. by apply source_NoDup.
Qed.

Lemma moved_row :
  applyWrites ws tbl !! cardId
  = applyPatch (movePatch dB di) <$> tbl !! cardId.
Proof using dest_NoDup source_NoDup source_fresh disjoint.
  apply applyWrites_lookup; [apply moveWrites_NoDup|].
  unfold ws, moveWrites. apply elem_of_cons. by left.
Qed.

Lemma dest_row n c :
  dC !! n = Some c -> CardData.id c ≠ cardId ->
  applyWrites ws tbl !! CardData.id c
  = applyPatch (positionPatch n) <$> tbl !! CardData.id c.
Proof using dest_NoDup source_NoDup source_fresh disjoint.
  intros Hc Hne. apply applyWrites_lookup; [apply moveWrites_NoDup|].
  unfold ws, moveWrites. apply elem_of_cons. right.
  apply elem_of_app. left.
  apply list_elem_of_fmap. exists (CardData.id c, n). split; [done|].
  apply list_elem_of_filter. split; [done|].
  apply elem_of_updatesOf. eauto.
Qed.

Lemma source_row n c :
  sB ≠ dB -> sC !! n = Some c ->
  applyWrites ws tbl !! CardData.id c
  = applyPatch (positionPatch n) <$> tbl !! CardData.id c.
Proof using dest_NoDup source_NoDup source_fresh disjoint.
  intros Hne Hc. apply applyWrites_lookup; [apply moveWrites_NoDup|].
  unfold ws, moveWrites. apply elem_of_cons. right.
  apply elem_of_app. right. rewrite decide_True by done.
  apply list_elem_of_fmap. exists (CardData.id c, n). split; [done|].
  apply elem_of_updatesOf. eauto.
Qed.

Lemma untouched_row k :
  k ≠ cardId -> k ∉ CardData.id <$> dC ->
  (sB ≠ dB -> k ∉ CardData.id <$> sC) ->
  applyWrites ws tbl !! k = tbl !! k.
Proof.
  intros Hk Hd Hs. apply applyWrites_lookup_ne.
  unfold ws, moveWrites. rewrite fmap_cons, fmap_app. simpl.
  rewrite elem_of_cons, elem_of_app, others_keys.
  intros [?|[[_ ?]|Hin]]; [done..|].
  destruct (decide (sB ≠ dB)) as [Hne|]; [|by apply not_elem_of_nil in Hin].
  rewrite toWrite_fst, updatesOf_fst in Hin. by apply Hs.
Qed.
End MoveWrites.

(** ** Memory and store in step *)

Lemma elem_of_ids l k :
  k ∈ ids l ↔ exists n c, l !! n = Some c ∧ CardData.id c = k.
Proof.
  unfold ids. rewrite list_elem_of_fmap. split.
  - intros (c & -> & [n Hn]%list_elem_of_lookup). eauto.
  - intros (n & c & Hn & <-). exists c. split; [done|].
    apply list_elem_of_lookup. eauto.
Qed.

Lemma cardsOf_insert cs b l b' :
  cardsOf (<[b := l]> cs) b' = if decide (b = b') then l else cardsOf cs b'.
Proof.
  unfold cardsOf. rewrite lookup_insert. by destruct (decide (b = b')).
Qed.

Section InSync.
Context (bs : list jsstring) (cs : gmap jsstring (list CardData.t)).
Context (tbl : gmap jsstring CardRow).
Hypothesis sync : inSync bs cs tbl.

Lemma inSync_unique a b i j c1 c2 :
  cardsOf cs a !! i = Some c1 -> cardsOf cs b !! j = Some c2 ->
  CardData.id c1 = CardData.id c2 -> a = b ∧ i = j.
Proof using sync.
  destruct sync as [H1 _]. intros Ha Hb Heq.
  destruct (H1 _ _ _ Ha) as (r1 & Hr1 & <- & Hp1).
  destruct (H1 _ _ _ Hb) as (r2 & Hr2 & <- & Hp2).
  rewrite Heq in Hr1. simplify_eq. split; [done|lia].
Qed.

Lemma inSync_NoDup b : NoDup (ids (cardsOf cs b)).
Proof using sync.
  apply NoDup_alt. intros i j k Hi Hj. unfold ids in *.
  rewrite list_lookup_fmap in Hi, Hj.
  destruct (cardsOf cs b !! i) as [c1|] eqn:E1; [|done].
  destruct (cardsOf cs b !! j) as [c2|] eqn:E2; [|done].
  simpl in *. simplify_eq.
  by destruct (inSync_unique _ _ _ _ _ _ E1 E2).
Qed.

Lemma inSync_apart a b k :
  a ≠ b -> k ∈ ids (cardsOf cs a) -> k ∉ ids (cardsOf cs b).
Proof using sync.
  intros Hab (i & c1 & H1 & <-)%elem_of_ids (j & c2 & H2 & Heq)%elem_of_ids.
  symmetry in Heq. by destruct (inSync_unique _ _ _ _ _ _ H1 H2 Heq).
Qed.

(** Replacing the arrays of the boards [B] and rewriting the rows of the
    keys [T] keeps memory and store in step, provided the new arrays
    agree with the rewritten rows. *)
Lemma inSync_update (B T : jsstring -> Prop) cs' tbl' :
  (forall b n c, B b -> cardsOf cs' b !! n = Some c ->
     exists r, tbl' !! CardData.id c = Some r
               ∧ cr_board_id r = b ∧ cr_position r = Z.of_nat n) ->
  (forall b, ¬ B b -> cardsOf cs' b = cardsOf cs b) ->
  (forall k, ¬ T k -> tbl' !! k = tbl !! k) ->
  (forall b n c, cardsOf cs b !! n = Some c -> B b ↔ T (CardData.id c)) ->
  (forall k, T k ->
     exists b n c, B b ∧ cardsOf cs' b !! n = Some c ∧ CardData.id c = k) ->
  (forall b, Decision (B b)) -> (forall k, Decision (T k)) ->
  inSync bs cs' tbl'.
Proof using sync.
  intros Hnew Hmem Htbl Hold Hcover decB decT.
  destruct sync as [H1 H2]. split.
  - intros b n c Hc. destruct (decide (B b)) as [Hb|Hb]; [by eapply Hnew|].
    rewrite Hmem in Hc by done. rewrite Htbl; [by apply H1|].
    intros Ht. apply Hb. by eapply Hold.
  - intros k r Hr Hin. destruct (decide (T k)) as [Ht|Ht].
    + destruct (Hcover k Ht) as (b & n & c & Hb & Hc & <-).
      destruct (Hnew _ _ _ Hb Hc) as (r' & Hr' & <- & Hp).
      simplify_eq. eauto.
    + rewrite Htbl in Hr by done.
      destruct (H2 _ _ Hr Hin) as (n & c & Hc & <- & Hp).
      exists n, c. split; [|done]. rewrite Hmem; [done|].
      intros Hb. apply Ht. by eapply Hold.
Qed.
End InSync.

Lemma ids_splice_in j c l : ids (splice_in j c l) ≡ₚ CardData.id c :: ids l.
Proof. unfold ids. by rewrite splice_in_Permutation. Qed.

Lemma ids_delete i c l :
  l !! i = Some c -> ids l ≡ₚ CardData.id c :: ids (delete i l).
Proof.
  intros H. unfold ids. by rewrite (delete_Permutation l i c H) at 1.
Qed.

Lemma same_index l n j c1 c2 :
  NoDup (ids l) -> l !! n = Some c1 -> l !! j = Some c2 ->
  CardData.id c1 = CardData.id c2 -> n = j.
Proof.
  intros Hnd H1 H2 Heq.
  apply (NoDup_lookup _ _ _ (CardData.id c1) Hnd); unfold ids;
    rewrite list_lookup_fmap; [by rewrite H1|by rewrite H2, Heq].
Qed.

(** A reorder inside one board, all writes applied. *)
Lemma inSync_reorder bs cs tbl b i j c :
  inSync bs cs tbl ->
  cardsOf cs b !! i = Some c ->
  (j <= length (delete i (cardsOf cs b)))%nat ->
  let D := splice_in j (CardData.set_board_id b c) (delete i (cardsOf cs b)) in
  inSync bs (<[b := D]> cs)
    (applyWrites (moveWrites (CardData.id c) b b j D D) tbl).
Proof.
  intros Hs Hc Hj D. pose proof Hs as [H1 _].
  assert (HD : ids D ≡ₚ ids (cardsOf cs b)).
  { unfold D. rewrite ids_splice_in. cbn. symmetry. by apply ids_delete. }
  assert (Hnd : NoDup (ids D)) by (rewrite HD; by eapply inSync_NoDup).
  assert (Hmoved : D !! j = Some (CardData.set_board_id b c))
    by by apply splice_in_lookup.
  assert (Hv1 : b ≠ b -> NoDup (CardData.id <$> D)) by done.
  assert (Hv2 : b ≠ b -> CardData.id c ∉ CardData.id <$> D) by done.
  assert (Hv3 : b ≠ b -> forall k, k ∈ CardData.id <$> D -> k ∉ CardData.id <$> D)
    by done.
  apply (inSync_update bs cs tbl Hs (fun b' => b' = b)
           (fun k => k ∈ ids (cardsOf cs b))).
  - intros b' n c1 -> Hc1. rewrite cardsOf_insert, decide_True in Hc1 by done.
    destruct (decide (CardData.id c1 = CardData.id c)) as [Heq|Hne].
    + assert (n = j) as -> by (by eapply same_index).
      rewrite Heq, (moved_row _ b b j D D tbl Hnd Hv1 Hv2 Hv3).
      destruct (H1 _ _ _ Hc) as (r & -> & _ & _). simpl. eauto.
    + rewrite (dest_row _ b b j D D tbl Hnd Hv1 Hv2 Hv3 n c1 Hc1 Hne).
      assert (Hin : CardData.id c1 ∈ ids (cardsOf cs b))
        by (rewrite <- HD; apply elem_of_ids; eauto).
      apply elem_of_ids in Hin as (i0 & c0 & Hc0 & Heq0).
      destruct (H1 _ _ _ Hc0) as (r & Hr & Hb & _).
      rewrite <- Heq0, Hr. simpl. eauto.
  - intros b' Hb'. rewrite cardsOf_insert, decide_False; [done|congruence].
  - intros k Hk. apply untouched_row.
    + intros ->. apply Hk, elem_of_ids. eauto.
    + change (k ∉ ids D). by rewrite HD.
    + done.
  - intros b' n c1 Hc1. split.
    + intros ->. apply elem_of_ids. eauto.
    + intros (i0 & c0 & Hc0 & Heq)%elem_of_ids. symmetry in Heq.
      by destruct (inSync_unique _ _ _ Hs _ _ _ _ _ _ Hc1 Hc0 Heq).
  - intros k Hk. rewrite <- HD in Hk.
    apply elem_of_ids in Hk as (n & c1 & Hc1 & <-).
    exists b, n, c1. split; [done|].
    by rewrite cardsOf_insert, decide_True.
  - intros b'. apply _.
  - intros k. apply _.
Qed.

(** A move from board [a] to another board [b], all writes applied. *)
Lemma inSync_transfer bs cs tbl a b i j c :
  a ≠ b ->
  inSync bs cs tbl ->
  cardsOf cs a !! i = Some c ->
  (j <= length (cardsOf cs b))%nat ->
  let D := splice_in j (CardData.set_board_id b c) (cardsOf cs b) in
  let S := delete i (cardsOf cs a) in
  inSync bs (<[b := D]> (<[a := S]> cs))
    (applyWrites (moveWrites (CardData.id c) a b j D S) tbl).
Proof.
  intros Hab Hs Hc Hj D S. pose proof Hs as [H1 _].
  assert (HD : ids D ≡ₚ CardData.id c :: ids (cardsOf cs b))
    by exact (ids_splice_in j (CardData.set_board_id b c) _).
  assert (HS : ids (cardsOf cs a) ≡ₚ CardData.id c :: ids S)
    by by apply ids_delete.
  assert (Hca : CardData.id c ∈ ids (cardsOf cs a))
    by (apply elem_of_ids; eauto).
  pose proof (inSync_NoDup _ _ _ Hs a) as Hnda. rewrite HS in Hnda.
  apply NoDup_cons in Hnda as [HcS HndS].
  assert (Hnd : NoDup (ids D)).
  { rewrite HD. apply NoDup_cons. split; [|by eapply inSync_NoDup].
    by eapply inSync_apart. }
  assert (Hmoved : D !! j = Some (CardData.set_board_id b c))
    by by apply splice_in_lookup.
  assert (Hv1 : a ≠ b -> NoDup (CardData.id <$> S)) by done.
  assert (Hv2 : a ≠ b -> CardData.id c ∉ CardData.id <$> S) by done.
  assert (Hv3 : a ≠ b ->
                forall k, k ∈ CardData.id <$> D -> k ∉ CardData.id <$> S).
  { intros _ k Hk HkS. change (k ∈ ids D) in Hk. change (k ∈ ids S) in HkS.
    rewrite HD in Hk. apply elem_of_cons in Hk as [-> | Hk]; [done|].
    eapply (inSync_apart _ _ _ Hs b a); [done|exact Hk|].
    rewrite HS. apply elem_of_cons. by right. }
  apply (inSync_update bs cs tbl Hs (fun b' => b' = a ∨ b' = b)
           (fun k => k ∈ ids (cardsOf cs a) ∨ k ∈ ids (cardsOf cs b))).
  - intros b' n c1 Hb' Hc1. rewrite !cardsOf_insert in Hc1.
    destruct (decide (b = b')) as [<-|Hnb].
    + destruct (decide (CardData.id c1 = CardData.id c)) as [Heq|Hne].
      * assert (n = j) as -> by (by eapply same_index).
        rewrite Heq, (moved_row _ a b j D S tbl Hnd Hv1 Hv2 Hv3).
        destruct (H1 _ _ _ Hc) as (r & -> & _ & _). simpl. eauto.
      * rewrite (dest_row _ a b j D S tbl Hnd Hv1 Hv2 Hv3 n c1 Hc1 Hne).
        assert (Hin : CardData.id c1 ∈ ids D) by (apply elem_of_ids; eauto).
        rewrite HD in Hin. apply elem_of_cons in Hin as [?|Hin]; [done|].
        apply elem_of_ids in Hin as (i0 & c0 & Hc0 & Heq0).
        destruct (H1 _ _ _ Hc0) as (r & Hr & Hb & _).
        rewrite <- Heq0, Hr. simpl. eauto.
    + destruct Hb' as [-> | ->]; [|done]. rewrite decide_True in Hc1 by done.
      rewrite (source_row _ a b j D S tbl Hnd Hv1 Hv2 Hv3 n c1 Hab Hc1).
      assert (Hin : CardData.id c1 ∈ ids (cardsOf cs a)).
      { rewrite HS. apply elem_of_cons. right. apply elem_of_ids. eauto. }
      apply elem_of_ids in Hin as (i0 & c0 & Hc0 & Heq0).
      destruct (H1 _ _ _ Hc0) as (r & Hr & Hb & _).
      rewrite <- Heq0, Hr. simpl. eauto.
  - intros b' Hb'. rewrite !cardsOf_insert.
    rewrite !decide_False; [done|..]; intros <-; apply Hb'; auto.
  - intros k Hk. apply untouched_row.
    + intros ->. apply Hk. by left.
    + change (k ∉ ids D). rewrite HD. intros [-> | ?]%elem_of_cons; apply Hk; auto.
    + intros _ HkS. apply Hk. left. rewrite HS. apply elem_of_cons. by right.
  - intros b' n c1 Hc1. split.
    + intros [-> | ->]; [left|right]; apply elem_of_ids; eauto.
    + intros [Hin|Hin]; apply elem_of_ids in Hin as (i0 & c0 & Hc0 & Heq);
        symmetry in Heq;
        destruct (inSync_unique _ _ _ Hs _ _ _ _ _ _ Hc1 Hc0 Heq); auto.
  - intros k [Hk|Hk].
    + rewrite HS in Hk. apply elem_of_cons in Hk as [-> | Hk].
      * exists b, j, (CardData.set_board_id b c). split; [by right|].
        by rewrite cardsOf_insert, decide_True.
      * apply elem_of_ids in Hk as (n & c1 & Hc1 & <-).
        exists a, n, c1. split; [by left|].
        by rewrite !cardsOf_insert, decide_False, decide_True.
    + assert (Hin : k ∈ ids D) by (rewrite HD; apply elem_of_cons; by right).
      apply elem_of_ids in Hin as (n & c1 & Hc1 & <-).
      exists b, n, c1. split; [by right|].
      by rewrite cardsOf_insert, decide_True.
  - intros b'. apply _.
  - intros k. apply _.
Qed.

(** ** Successful moves *)

Lemma handleDragEnd_no_destination result w :
  destination result = None -> handleDragEnd result w = (Ret tt, w).
Proof.
  intros Hd. unfold handleDragEnd, handleDragEnd_local, bind. by rewrite Hd.
Qed.

Lemma exec_setCards_kanban v w :
  cards (kanban (exec (setCards v) w)) = v
  ∧ boards (kanban (exec (setCards v) w)) = boards (kanban w).
Proof. done. Qed.

Lemma moved_synced w w' : synced w -> moved w w' -> synced w'.
Proof.
  intros Hs Hm. destruct Hm as [result w [(c & Hc & Hid) Hland] Hf].
  destruct (destination result) as [dst|] eqn:Hd.
  2:{ unfold exec. by rewrite handleDragEnd_no_destination. }
  destruct (decide (isNoop (source result) dst)) as [Hn|Hn].
  { unfold exec. by rewrite (handleDragEnd_same_place _ _ _ Hd Hn). }
  specialize (Hland dst eq_refl). unfold landing in Hland.
  destruct (source result) as [sB si] eqn:Hsrc.
  destruct dst as [dB dj]. simpl in *.
  pose proof (allDone_noReject _ Hf) as Hnr.
  destruct (decide (sB = dB)) as [<-|Hne].
  - pose proof (rearrange_same _ _ _ dj _ Hc) as Hr. cbv zeta in Hr.
    rewrite <- Hsrc in Hr, Hn.
    unfold exec. rewrite (handleDragEnd_run _ _ _ _ _ _ Hd Hn Hr Hnr).
    unfold synced, scope. cbn [snd].
    rewrite settle_kanban, settle_cards_tbl by done.
    rewrite Hsrc, <- Hid. cbn [droppableId index].
    by apply inSync_reorder.
  - pose proof (rearrange_cross _ _ _ _ dj _ Hne Hc) as Hr.
    rewrite <- Hsrc in Hr, Hn.
    unfold exec. rewrite (handleDragEnd_run _ _ _ _ _ _ Hd Hn Hr Hnr).
    unfold synced, scope. cbn [snd].
    rewrite settle_kanban, settle_cards_tbl by done.
    rewrite Hsrc, <- Hid. cbn [droppableId index].
    by apply inSync_transfer.
Qed.

(** ** Dense positions *)

Lemma elem_of_boardRows tbl b k r :
  (k, r) ∈ boardRows tbl b ↔ tbl !! k = Some r ∧ cr_board_id r = b.
Proof.
  unfold boardRows. rewrite list_elem_of_filter, elem_of_map_to_list. tauto.
Qed.

Lemma boardRows_NoDup tbl b : NoDup (boardRows tbl b).*1.
Proof.
  apply (sublist_NoDup _ _ (NoDup_fst_map_to_list tbl)).
  apply fmap_sublist, sublist_filter.
Qed.

Lemma inSync_rows bs cs tbl b :
  inSync bs cs tbl -> b ∈ bs -> (boardRows tbl b).*1 ≡ₚ ids (cardsOf cs b).
Proof.
  intros Hs Hb. apply NoDup_Permutation.
  - apply boardRows_NoDup.
  - by eapply inSync_NoDup.
  - intros k. rewrite elem_of_ids, list_elem_of_fmap.
    destruct Hs as [H1 H2]. split.
    + intros ([k' r] & -> & [Hr <-]%elem_of_boardRows).
      destruct (H2 _ _ Hr Hb) as (i & c & Hc & Hk & _). eauto.
    + intros (n & c & Hc & <-).
      destruct (H1 _ _ _ Hc) as (r & Hr & Hbr & _).
      exists (CardData.id c, r). split; [done|].
      by apply elem_of_boardRows.
Qed.

Lemma inSync_dense bs cs tbl b :
  inSync bs cs tbl -> b ∈ bs ->
  densePositions tbl b ∧ length (boardRows tbl b) = length (cardsOf cs b).
Proof.
  intros Hs Hb. pose proof (inSync_rows _ _ _ _ Hs Hb) as Hp.
  assert (Hlen : length (boardRows tbl b) = length (cardsOf cs b)).
  { apply Permutation_length in Hp. unfold ids in Hp.
    by rewrite !length_fmap in Hp. }
  split; [|done]. unfold densePositions. rewrite Hlen.
  assert (H1 : (fun kr => cr_position kr.2) <$> boardRows tbl b
               = positionOf tbl <$> (boardRows tbl b).*1).
  { rewrite <- list_fmap_compose. apply list_fmap_ext.
    intros i [k r] [Hr _]%list_elem_of_lookup_2%elem_of_boardRows.
    unfold positionOf. simpl. by rewrite Hr. }
  rewrite H1, Hp. clear H1 Hp Hlen.
  assert (H2 : positionOf tbl <$> ids (cardsOf cs b)
               = Z.of_nat <$> seq 0 (length (cardsOf cs b))); [|by rewrite H2].
  apply list_eq. intros i. unfold ids. rewrite !list_lookup_fmap.
  destruct (cardsOf cs b !! i) as [c|] eqn:Hc; simpl.
  - destruct Hs as [Hs _]. destruct (Hs _ _ _ Hc) as (r & Hr & _ & Hpos).
    apply lookup_lt_Some in Hc.
    rewrite lookup_seq_lt by done. simpl.
    unfold positionOf. rewrite Hr. simpl. by rewrite Hpos.
  - apply lookup_ge_None in Hc. by rewrite lookup_seq_ge.
Qed.

(** ** The sample worlds are in step *)

Lemma oneBoard_synced fs : synced (oneBoard fs).
Proof.
  split.
  - intros b i c. unfold oneBoard, sampleWorld, cardsOf.
    cbn [kanban sampleKanban cards db cards_tbl].
    destruct (decide (b = js "B")) as [->|Hb].
    + rewrite lookup_singleton_eq. cbn [default].
      destruct i as [|[|[|i]]]; [intros [= <-]..|by destruct i].
      * by exists (sampleRow "X" "B" 0).
      * by exists (sampleRow "Y" "B" 1).
      * by exists (sampleRow "Z" "B" 2).
    + by rewrite lookup_singleton_ne.
  - intros k r. unfold oneBoard, sampleWorld, cardsOf.
    cbn [kanban sampleKanban cards db cards_tbl list_to_map foldr uncurry].
    intros Hr _. sync_rows; cbn [cr_board_id sampleRow];
      rewrite lookup_singleton_eq.
    + by exists 0%nat, (sampleCard "X" "B" 0).
    + by exists 1%nat, (sampleCard "Y" "B" 1).
    + by exists 2%nat, (sampleCard "Z" "B" 2).
Qed.

Lemma twoBoards_synced fs : synced (twoBoards fs).
Proof.
  assert (Hab : js "A" ≠ js "B") by done.
  split.
  - intros b i c. unfold twoBoards, sampleWorld, cardsOf.
    cbn [kanban sampleKanban cards db cards_tbl].
    destruct (decide (b = js "A")) as [->|Ha];
      [|destruct (decide (b = js "B")) as [->|Hb]].
    + rewrite lookup_insert_eq. cbn [default].
      destruct i as [|[|i]]; [intros [= <-]..|by destruct i].
      * by exists (sampleRow "P" "A" 0).
      * by exists (sampleRow "Q" "A" 1).
    + rewrite lookup_insert_ne, lookup_singleton_eq by done. cbn [default].
      destruct i as [|i]; [intros [= <-]|by destruct i].
      by exists (sampleRow "R" "B" 0).
    + rewrite lookup_insert_ne, lookup_singleton_ne by done. by destruct i.
  - intros k r. unfold twoBoards, sampleWorld, cardsOf.
    cbn [kanban sampleKanban cards db cards_tbl list_to_map foldr uncurry].
    intros Hr _. sync_rows; cbn [cr_board_id sampleRow].
    + rewrite lookup_insert_eq. by exists 0%nat, (sampleCard "P" "A" 0).
    + rewrite lookup_insert_eq. by exists 1%nat, (sampleCard "Q" "A" 1).
    + rewrite lookup_insert_ne, lookup_singleton_eq by done.
      by exists 0%nat, (sampleCard "R" "B" 0).
Qed.

(** * The claims *)

(** C5.  A move whose destination is the board and index the card came
    from changes nothing: the handler returns at once, the arrays in
    memory, the store and the trace of requests are what they were. *)
Theorem move_to_same_place_is_noop (cardId board : jsstring) (i : nat)
  (w : World) :
  handleDragEnd
    {| destination := Some {| droppableId := board; index := i |};
       source := {| droppableId := board; index := i |};
       draggableId := cardId |} w
  = (Ret tt, w).
Proof. by apply (handleDragEnd_same_place _ {| droppableId := board; index := i |}). Qed.

(** C10.  A drag that ends outside every board (no destination) changes
    nothing: the handler returns before touching the arrays and sends no
    request. *)
Theorem drop_outside_is_noop (src : Location) (cardId : jsstring) (w : World) :
  handleDragEnd_local
    {| destination := None; source := src; draggableId := cardId |} w
  = (Ret None, w)
  ∧ handleDragEnd
      {| destination := None; source := src; draggableId := cardId |} w
    = (Ret tt, w).
Proof. split; [done|]. by apply handleDragEnd_no_destination. Qed.

(** C3.  Start with arrays and store in step, so that every board's stored
    positions are [0 .. count-1].  After any number of moves whose writes
    all succeed, the stored positions of the cards of every board of the
    project are again exactly [0 .. count-1], each once, and [count] is the
    number of cards shown for the board. *)
Theorem moves_keep_positions_dense (w w' : World) :
  synced w ->
  rtc moved w w' ->
  forall b, b ∈ scope w' ->
    densePositions (cards_tbl (db w')) b
    ∧ length (boardRows (cards_tbl (db w')) b)
      = length (cardsOf (cards (kanban w')) b).
Proof.
  intros Hs Hm. induction Hm as [w|w w1 w2 Hstep _ IH].
  - intros b Hb. by eapply inSync_dense.
  - apply IH. by eapply moved_synced.
Qed.

Lemma moves_keep_positions_dense_witness :
  densePositions
    (cards_tbl (db (exec (handleDragEnd (drag "X" "B" 0 "B" 2)) (oneBoard []))))
    (js "B").
Proof.
  refine (proj1 (moves_keep_positions_dense (oneBoard []) _ _ _ (js "B") _)).
  - apply oneBoard_synced.
  - apply rtc_once. apply moved_by; [|constructor]. split.
    + exists (sampleCard "X" "B" 0). by vm_compute.
    + intros dst [= <-]. vm_compute. lia.
  - vm_compute. apply elem_of_cons. by left.
Defined.

Lemma fmap_splice_in {A B} (f : A -> B) i x l :
  f <$> splice_in i x l = splice_in i (f x) (f <$> l).
Proof. unfold splice_in. by rewrite fmap_app, fmap_cons, fmap_take, fmap_drop. Qed.

Lemma rearrange_landing cs src dst c :
  cardsOf cs (droppableId src) !! index src = Some c ->
  exists newCards destCards sourceCards,
    rearrange cs src dst = Some (newCards, destCards, sourceCards)
    ∧ destCards
      = splice_in (index dst) (CardData.set_board_id (droppableId dst) c)
          (landing cs src dst)
    ∧ cardsOf newCards (droppableId dst) = destCards
    ∧ (droppableId src ≠ droppableId dst ->
       sourceCards = delete (index src) (cardsOf cs (droppableId src))
       ∧ cardsOf newCards (droppableId src) = sourceCards).
Proof.
  intros Hc. destruct src as [a i], dst as [b j]. unfold landing. simpl in *.
  destruct (decide (a = b)) as [<-|Hab].
  - rewrite (rearrange_same _ _ _ j _ Hc). cbv zeta.
    eexists _, _, _. split; [done|]. split; [done|].
    split; [|done]. by rewrite cardsOf_insert, decide_True.
  - rewrite (rearrange_cross _ _ _ _ j _ Hab Hc).
    eexists _, _, _. split; [done|]. split; [done|]. split.
    + by rewrite cardsOf_insert, decide_True.
    + intros _. split; [done|].
      by rewrite !cardsOf_insert, decide_False, decide_True.
Qed.

(** C4, as the code has it.  When a card sits at the source index of a
    move that is not a no-op, the arrays installed before any request is
    sent hold the new arrangement: the card, with its board reference set
    to the destination board, is inserted at the destination index of the
    destination array and, if the boards differ, is gone from the source
    array.  Nothing is renumbered in memory: every card keeps the
    [position] field it had, the moved one included. *)
Theorem local_move_keeps_position_fields (w : World) (result : DropResult)
  (dst : Location) (c : CardData.t) :
  destination result = Some dst ->
  ¬ isNoop (source result) dst ->
  cardsOf (cards (kanban w)) (droppableId (source result))
    !! index (source result) = Some c ->
  let src := source result in
  let w' := exec (handleDragEnd_local result) w in
  let movedCard := CardData.set_board_id (droppableId dst) c in
  db w' = db w ∧ log w' = log w
  ∧ cardsOf (cards (kanban w')) (droppableId dst)
    = splice_in (index dst) movedCard (landing (cards (kanban w)) src dst)
  ∧ (droppableId src ≠ droppableId dst ->
     cardsOf (cards (kanban w')) (droppableId src)
     = delete (index src) (cardsOf (cards (kanban w)) (droppableId src)))
  ∧ CardData.position <$> cardsOf (cards (kanban w')) (droppableId dst)
    = splice_in (index dst) (CardData.position c)
        (CardData.position <$> landing (cards (kanban w)) src dst)
  ∧ CardData.board_id movedCard = droppableId dst.
Proof.
  intros Hd Hn Hc src w' movedCard.
  destruct (rearrange_landing _ _ dst _ Hc)
    as (nc & dC & sC & Hr & HdC & Hnc & Hsrc).
  unfold w', exec. rewrite (handleDragEnd_local_run _ _ _ _ _ _ Hd Hn Hr).
  cbn [snd]. split; [done|]. split; [done|].
  change (cards (kanban (exec (setCards nc) w))) with nc.
  rewrite Hnc, HdC. split; [done|]. split.
  - intros Hne. destruct (Hsrc Hne) as [HsC Hnc']. unfold src.
    by rewrite Hnc'.
  - split; [|done]. by rewrite fmap_splice_in.
Qed.

Lemma local_move_keeps_position_fields_witness :
  CardData.position
    <$> cardsOf (cards (kanban (exec (handleDragEnd_local (drag "X" "B" 0 "B" 2))
                                  (oneBoard []))))
          (js "B")
  = [1; 2; 0].
Proof.
  refine (proj1 (proj2 (proj2 (proj2 (proj2
    (local_move_keeps_position_fields (oneBoard []) (drag "X" "B" 0 "B" 2)
       {| droppableId := js "B"; index := 2 |} (sampleCard "X" "B" 0)
       eq_refl _ eq_refl)))))).
  intros [_ H]. discriminate H.
Defined.

(** C4 as stated fails: after moving [X] from index 0 to index 2 of board
    [B], the arrays in memory show [Y; Z; X] with position fields 1, 2, 0. *)
Lemma memory_positions_not_renumbered :
  let w' := exec (handleDragEnd_local (drag "X" "B" 0 "B" 2)) (oneBoard []) in
  ids (cardsOf (cards (kanban w')) (js "B")) = [js "Y"; js "Z"; js "X"]
  ∧ CardData.position <$> cardsOf (cards (kanban w')) (js "B") = [1; 2; 0]
  ∧ ¬ (forall i c, cardsOf (cards (kanban w')) (js "B") !! i = Some c ->
                   CardData.position c = Z.of_nat i).
Proof.
  split; [by vm_compute|]. split; [by vm_compute|].
  intros H. specialize (H 0%nat (sampleCard "Y" "B" 1) eq_refl). discriminate H.
Qed.

(** C2, as the code has it.  For a move that is not a no-op, whose dragged
    card sits at the source index and none of whose writes rejects, the
    requests sent are exactly: one update of the moved card's board
    reference and position; then one position update for every other card
    of the destination array, carrying its index there, whether or not that
    index is new; then, if the boards differ, one position update for every
    card left in the source array, again whether or not its index is new. *)
Theorem move_writes_every_sibling (w : World) (result : DropResult)
  (dst : Location) (c : CardData.t) :
  destination result = Some dst ->
  ¬ isNoop (source result) dst ->
  cardsOf (cards (kanban w)) (droppableId (source result))
    !! index (source result) = Some c ->
  CardData.id c = draggableId result ->
  noReject (faults w) ->
  let sourceBoard := droppableId (source result) in
  let destBoard := droppableId dst in
  let w' := exec (handleDragEnd result) w in
  let positionUpdate (u : jsstring * nat) :=
    Sent (UpdateCard u.1 (positionPatch u.2)) in
  log w'
  = log w
    ++ Sent (UpdateCard (CardData.id c) (movePatch destBoard (index dst)))
    :: (positionUpdate
          <$> filter (fun u => u.1 ≠ CardData.id c)
                (updatesOf (cardsOf (cards (kanban w')) destBoard)))
    ++ (if decide (sourceBoard ≠ destBoard)
        then positionUpdate
               <$> updatesOf (cardsOf (cards (kanban w')) sourceBoard)
        else []).
Proof.
  intros Hd Hn Hc Hid Hf sB dB w' positionUpdate.
  destruct (rearrange_landing _ _ dst _ Hc)
    as (nc & dC & sC & Hr & HdC & Hnc & Hsrc).
  unfold w', exec. rewrite (handleDragEnd_run _ _ _ _ _ _ Hd Hn Hr Hf).
  cbn [snd]. rewrite settle_log, settle_kanban.
  change (cards (kanban (exec (setCards nc) w))) with nc.
  change (log (exec (setCards nc) w)) with (log w).
  subst sB dB positionUpdate. rewrite Hnc, <- Hid. unfold moveWrites.
  rewrite fmap_cons, fmap_app, <- !list_fmap_compose.
  f_equal. f_equal. f_equal. destruct (decide _) as [Hne|]; [|done].
  destruct (Hsrc Hne) as [_ Hnc']. rewrite Hnc'.
  by rewrite <- list_fmap_compose.
Qed.

Lemma move_writes_every_sibling_witness :
  log (exec (handleDragEnd (drag "Z" "B" 2 "B" 1)) (oneBoard []))
  = [Sent (UpdateCard (js "Z") (movePatch (js "B") 1));
     Sent (UpdateCard (js "X") (positionPatch 0));
     Sent (UpdateCard (js "Y") (positionPatch 2))].
Proof.
  refine (eq_trans
    (move_writes_every_sibling (oneBoard []) (drag "Z" "B" 2 "B" 1)
       {| droppableId := js "B"; index := 1 |} (sampleCard "Z" "B" 2)
       eq_refl _ eq_refl eq_refl _) _).
  - intros [_ H]. discriminate H.
  - constructor.
  - by vm_compute.
Defined.

(** C2 as stated fails: moving [Z] from index 2 to index 1 of board [B]
    leaves [X] at index 0, and a position update for [X] is sent all the
    same. *)
Lemma unchanged_index_is_rewritten :
  let w := oneBoard [] in
  let w' := exec (handleDragEnd (drag "Z" "B" 2 "B" 1)) w in
  ids (cardsOf (cards (kanban w)) (js "B")) !! 0%nat = Some (js "X")
  ∧ ids (cardsOf (cards (kanban w')) (js "B")) !! 0%nat = Some (js "X")
  ∧ Sent (UpdateCard (js "X") (positionPatch 0)) ∈ log w'.
Proof.
  split; [by vm_compute|]. split; [by vm_compute|].
  vm_compute. apply elem_of_cons. right. apply elem_of_cons. by left.
Qed.

Lemma renumbered tbl tbl' k b i n :
  storedAt tbl k b i ->
  tbl' !! k = applyPatch (positionPatch n) <$> tbl !! k ->
  storedAt tbl' k b (Z.of_nat n).
Proof.
  intros (r & Hr & Hb & _) Hk. rewrite Hr in Hk.
  exists (applyPatch (positionPatch n) r). by rewrite Hk.
Qed.

Lemma rehomed tbl tbl' k a i b n :
  storedAt tbl k a i ->
  tbl' !! k = applyPatch (movePatch b n) <$> tbl !! k ->
  storedAt tbl' k b (Z.of_nat n).
Proof.
  intros (r & Hr & _ & _) Hk. rewrite Hr in Hk.
  exists (applyPatch (movePatch b n) r). by rewrite Hk.
Qed.

Lemma set_board_id_same c : CardData.set_board_id (CardData.board_id c) c = c.
Proof. by destruct c. Qed.

(** C6.  Board [B] shows [X; Y; Z], stored at positions 0, 1, 2.  Moving
    [X] from index 0 to index 2 of [B], every write succeeding, leaves [B]
    showing [Y; Z; X], stored at positions 0, 1, 2 in that order: the card
    is taken out first and inserted into the shortened array. *)
Theorem same_board_reorder (w : World) (B : jsstring) (X Y Z : CardData.t) :
  cards (kanban w) !! B = Some [X; Y; Z] ->
  CardData.board_id X = B ->
  NoDup (ids [X; Y; Z]) ->
  storedAt (cards_tbl (db w)) (CardData.id X) B 0 ->
  storedAt (cards_tbl (db w)) (CardData.id Y) B 1 ->
  storedAt (cards_tbl (db w)) (CardData.id Z) B 2 ->
  allDone (faults w) ->
  let w' :=
    exec (handleDragEnd
            {| destination := Some {| droppableId := B; index := 2 |};
               source := {| droppableId := B; index := 0 |};
               draggableId := CardData.id X |}) w in
  cards (kanban w') !! B = Some [Y; Z; X]
  ∧ storedAt (cards_tbl (db w')) (CardData.id Y) B 0
  ∧ storedAt (cards_tbl (db w')) (CardData.id Z) B 1
  ∧ storedAt (cards_tbl (db w')) (CardData.id X) B 2.
Proof.
  intros Hcs HX Hnd HsX HsY HsZ Hf w'.
  assert (Hl : cardsOf (cards (kanban w)) B = [X; Y; Z])
    by (unfold cardsOf; by rewrite Hcs).
  assert (Hc : cardsOf (cards (kanban w)) B !! 0%nat = Some X) by by rewrite Hl.
  pose proof (rearrange_same _ _ _ 2 _ Hc) as Hr. cbv zeta in Hr.
  rewrite Hl, <- HX, set_board_id_same, HX in Hr.
  change (splice_in 2 X (delete 0%nat [X; Y; Z])) with [Y; Z; X] in Hr.
  unfold w', exec.
  erewrite handleDragEnd_run;
    [|done|by intros [_ [=]]|exact Hr|by apply allDone_noReject].
  cbn [snd draggableId source droppableId index].
  rewrite settle_kanban, settle_cards_tbl by done.
  change (cards (kanban (exec (setCards ?v) w))) with v.
  change (cards_tbl (db (exec (setCards ?v) w))) with (cards_tbl (db w)).
  unfold ids in Hnd. cbn in Hnd.
  rewrite !NoDup_cons, !not_elem_of_cons in Hnd.
  destruct Hnd as ((HXY & HXZ & _) & (HYZ & _) & _).
  assert (Hnd : NoDup (CardData.id <$> [Y; Z; X])).
  { cbn. rewrite !NoDup_cons, !not_elem_of_cons.
    repeat split; try apply not_elem_of_nil; try apply NoDup_nil_2;
      by auto. }
  assert (Hv1 : B ≠ B -> NoDup (CardData.id <$> [Y; Z; X])) by done.
  assert (Hv2 : B ≠ B -> CardData.id X ∉ CardData.id <$> [Y; Z; X]) by done.
  assert (Hv3 : B ≠ B -> forall k, k ∈ CardData.id <$> [Y; Z; X] ->
                               k ∉ CardData.id <$> [Y; Z; X]) by done.
  split; [by rewrite lookup_insert_eq|]. split; [|split].
  - apply (renumbered _ _ _ _ _ 0 HsY).
    by apply (dest_row _ B B 2 _ _ _ Hnd Hv1 Hv2 Hv3 0 Y); auto.
  - apply (renumbered _ _ _ _ _ 1 HsZ).
    by apply (dest_row _ B B 2 _ _ _ Hnd Hv1 Hv2 Hv3 1 Z); auto.
  - apply (rehomed _ _ _ _ _ B 2 HsX).
    by apply (moved_row _ B B 2 _ _ _ Hnd Hv1 Hv2 Hv3).
Qed.

Lemma same_board_reorder_witness :
  cards (kanban (exec (handleDragEnd (drag "X" "B" 0 "B" 2)) (oneBoard [])))
    !! js "B"
  = Some [sampleCard "Y" "B" 1; sampleCard "Z" "B" 2; sampleCard "X" "B" 0].
Proof.
  refine (proj1 (same_board_reorder (oneBoard []) (js "B")
    (sampleCard "X" "B" 0) (sampleCard "Y" "B" 1) (sampleCard "Z" "B" 2)
    _ eq_refl _ _ _ _ _)).
  - by vm_compute.
  - apply (bool_decide_unpack _). by vm_compute.
  - by exists (sampleRow "X" "B" 0).
  - by exists (sampleRow "Y" "B" 1).
  - by exists (sampleRow "Z" "B" 2).
  - constructor.
Defined.

(** C7.  Board [A] shows [P; Q] and board [B] shows [R], stored at dense
    positions.  Moving [P] from index 0 of [A] to index 1 of [B], every
    write succeeding, leaves [A] showing [Q], stored at position 0, and [B]
    showing [R; P], stored at positions 0 and 1; [P] now refers to board
    [B], in memory and in the store.  The store receives the new board and
    the new position of [P] in one and the same update, the first request
    of the move. *)
Theorem cross_board_move (w : World) (A B : jsstring) (P Q R : CardData.t) :
  A ≠ B ->
  cards (kanban w) !! A = Some [P; Q] ->
  cards (kanban w) !! B = Some [R] ->
  NoDup (ids [P; Q; R]) ->
  storedAt (cards_tbl (db w)) (CardData.id P) A 0 ->
  storedAt (cards_tbl (db w)) (CardData.id Q) A 1 ->
  storedAt (cards_tbl (db w)) (CardData.id R) B 0 ->
  allDone (faults w) ->
  let w' :=
    exec (handleDragEnd
            {| destination := Some {| droppableId := B; index := 1 |};
               source := {| droppableId := A; index := 0 |};
               draggableId := CardData.id P |}) w in
  let P' := CardData.set_board_id B P in
  cards (kanban w') !! A = Some [Q]
  ∧ cards (kanban w') !! B = Some [R; P']
  ∧ CardData.board_id P' = B
  ∧ storedAt (cards_tbl (db w')) (CardData.id Q) A 0
  ∧ storedAt (cards_tbl (db w')) (CardData.id R) B 0
  ∧ storedAt (cards_tbl (db w')) (CardData.id P) B 1
  ∧ log w'
    = log w
      ++ [Sent (UpdateCard (CardData.id P) (movePatch B 1));
          Sent (UpdateCard (CardData.id R) (positionPatch 0));
          Sent (UpdateCard (CardData.id Q) (positionPatch 0))].
Proof.
  intros Hab HA HB Hnd HsP HsQ HsR Hf w' P'.
  assert (Hla : cardsOf (cards (kanban w)) A = [P; Q])
    by (unfold cardsOf; by rewrite HA).
  assert (Hlb : cardsOf (cards (kanban w)) B = [R])
    by (unfold cardsOf; by rewrite HB).
  assert (Hc : cardsOf (cards (kanban w)) A !! 0%nat = Some P) by by rewrite Hla.
  pose proof (rearrange_cross _ _ _ _ 1 _ Hab Hc) as Hr.
  rewrite Hla, Hlb in Hr.
  change (splice_in 1 (CardData.set_board_id B P) [R]) with [R; P'] in Hr.
  change (delete 0%nat [P; Q]) with [Q] in Hr.
  unfold w', exec.
  erewrite handleDragEnd_run;
    [|done|by intros [? _]|exact Hr|by apply allDone_noReject].
  cbn [snd draggableId source droppableId index].
  rewrite settle_kanban, settle_log, settle_cards_tbl by done.
  change (cards (kanban (exec (setCards ?v) w))) with v.
  change (cards_tbl (db (exec (setCards ?v) w))) with (cards_tbl (db w)).
  change (log (exec (setCards ?v) w)) with (log w).
  unfold ids in Hnd. cbn in Hnd.
  rewrite !NoDup_cons, !not_elem_of_cons in Hnd.
  destruct Hnd as ((HPQ & HPR & _) & (HQR & _) & _).
  assert (Hnd : NoDup (CardData.id <$> [R; P'])).
  { cbn. rewrite !NoDup_cons, !not_elem_of_cons.
    repeat split; try apply not_elem_of_nil; try apply NoDup_nil_2;
      by auto. }
  assert (Hv1 : A ≠ B -> NoDup [CardData.id Q]).
  { intros _. apply NoDup_singleton. }
  assert (Hv2 : A ≠ B -> CardData.id P ∉ [CardData.id Q]).
  { intros _ HP%list_elem_of_singleton. by apply HPQ. }
  assert (Hv3 : A ≠ B -> forall k, k ∈ [CardData.id R; CardData.id P] ->
                               k ∉ [CardData.id Q]).
  { intros _ k Hk ->%list_elem_of_singleton.
    apply elem_of_cons in Hk as [HQ | HQ%list_elem_of_singleton]; auto. }
  assert (Hba : B ≠ A) by congruence.
  split; [by rewrite lookup_insert_ne, lookup_insert_eq by done|].
  split; [by rewrite lookup_insert_eq|]. split; [done|].
  split; [|split; [|split]].
  - apply (renumbered _ _ _ _ _ 0 HsQ).
    by apply (source_row _ A B 1 [R; P'] [Q] _ Hnd Hv1 Hv2 Hv3 0 Q).
  - apply (renumbered _ _ _ _ _ 0 HsR).
    by apply (dest_row _ A B 1 [R; P'] [Q] _ Hnd Hv1 Hv2 Hv3 0 R); auto.
  - apply (rehomed _ _ _ _ _ B 1 HsP).
    by apply (moved_row _ A B 1 [R; P'] [Q] _ Hnd Hv1 Hv2 Hv3).
  - f_equal. unfold moveWrites, updatesOf. cbn [imap CardData.id P'].
    rewrite filter_cons_True by (cbn; auto).
    rewrite filter_cons_False by (cbn; auto).
    by rewrite filter_nil, decide_True.
Qed.

Lemma cross_board_move_witness :
  let w' := exec (handleDragEnd (drag "P" "A" 0 "B" 1)) (twoBoards []) in
  cards (kanban w') !! js "A" = Some [sampleCard "Q" "A" 1]
  ∧ cards (kanban w') !! js "B"
    = Some [sampleCard "R" "B" 0; sampleCard "P" "B" 0].
Proof.
  pose proof (cross_board_move (twoBoards []) (js "A") (js "B")
    (sampleCard "P" "A" 0) (sampleCard "Q" "A" 1) (sampleCard "R" "B" 0))
    as H.
  simple refine (let H' := H _ _ _ _ _ _ _ _ in
                 conj (proj1 H') (proj1 (proj2 H'))).
  - done.
  - by vm_compute.
  - by vm_compute.
  - apply (bool_decide_unpack _). by vm_compute.
  - by exists (sampleRow "P" "A" 0).
  - by exists (sampleRow "Q" "A" 1).
  - by exists (sampleRow "R" "B" 0).
  - constructor.
Defined.

(** C1 does not hold of the code.  The writes of [handleDragEnd] are
    awaited but their replies are dropped: a write the store refuses
    resolves with an [error] field, nothing is thrown, and the [catch]
    block with its reload and its notification is never entered (every
    other handler of the component checks [if (error) throw error]).
    Here the third write of a move, the renumbering of [Q] on board [A],
    is refused: the arrays keep the optimistic arrangement, [Q] is shown
    at index 0 while stored at position 1, and the trace holds the three
    updates and neither a reload nor a notification. *)
Lemma failed_write_goes_unnoticed :
  let w := twoBoards [Done; Done; Failed "permission denied"] in
  let w' := exec (handleDragEnd (drag "P" "A" 0 "B" 1)) w in
  cards (kanban w')
  = cards (kanban (exec (handleDragEnd_local (drag "P" "A" 0 "B" 1)) w))
  ∧ cards (kanban w') !! js "A" = Some [sampleCard "Q" "A" 1]
  ∧ storedAt (cards_tbl (db w')) (js "Q") (js "A") 1
  ∧ log w'
    = [Sent (UpdateCard (js "P") (movePatch (js "B") 1));
       Sent (UpdateCard (js "R") (positionPatch 0));
       Sent (UpdateCard (js "Q") (positionPatch 0))].
Proof.
  split; [by vm_compute|]. split; [by vm_compute|]. split; [|by vm_compute].
  by exists (sampleRow "Q" "A" 1).
Qed.

(** For comparison, the same write rejecting: the [catch] block runs, the
    arrays are fetched again and show the store's partly updated rows,
    and the failure is notified. *)
Lemma rejected_write_reloads :
  let w := twoBoards [Done; Done; Rejected "network"] in
  let w' := exec (handleDragEnd (drag "P" "A" 0 "B" 1)) w in
  cards (kanban w') !! js "A" = Some [sampleCard "Q" "A" 1]
  ∧ cards (kanban w') !! js "B"
    = Some [sampleCard "R" "B" 0; sampleCard "P" "B" 1]
  ∧ cards (kanban w')
    = foldl pushCard ∅ (selectCards [js "A"; js "B"] (db w'))
  ∧ log w'
    = [Sent (UpdateCard (js "P") (movePatch (js "B") 1));
       Sent (UpdateCard (js "R") (positionPatch 0));
       Sent (UpdateCard (js "Q") (positionPatch 0));
       ConsoleError "Error updating card position:";
       Sent (SelectBoards (js "proj"));
       Sent (SelectCards [js "A"; js "B"]);
       Toast "Error" "Failed to move card. Please try again." true].
Proof. repeat split; by vm_compute. Qed.

(** ** Creation *)

Lemma request_done {A} (r : Request) (apply : Store -> Reply A * Store) w :
  nextDone w ->
  request r apply w
  = (Ret (apply (db w)).1,
     {| kanban := kanban w; modal := modal w; db := (apply (db w)).2;
        faults := tail (faults w); log := log w ++ [Sent r] |}).
Proof.
  unfold nextDone, request, bind, modify, outcome. cbn.
  destruct (faults w) as [|o fs] eqn:E; cbn.
  - intros _. unfold with_db, emit. cbn. rewrite E.
    by destruct (apply (db w)).
  - intros ->. unfold with_db, with_faults, emit. cbn.
    by destruct (apply (db w)).
Qed.

Section CreationFacts.
Variable gen_random_uuid : nat -> jsstring.

Lemma createCard_appends w :
  truthy (trim (nc_title (newCard (kanban w)))) = true ->
  truthy (selectedBoardId (kanban w)) = true ->
  nextDone w ->
  cards_tbl (db w) !! gen_random_uuid (serial (db w)) = None ->
  let b := selectedBoardId (kanban w) in
  let boardCards := cardsOf (cards (kanban w)) b in
  let w' := exec (createCard gen_random_uuid) w in
  exists data,
    cardsOf (cards (kanban w')) b = boardCards ++ [data]
    ∧ CardData.position data = Z.of_nat (length boardCards)
    ∧ CardData.tags data = []
    ∧ CardData.board_id data = b
    ∧ storedAt (cards_tbl (db w')) (CardData.id data) b
        (Z.of_nat (length boardCards))
    ∧ cr_tags <$> cards_tbl (db w') !! CardData.id data = Some [].
Proof.
  intros Ht Hb Hd Hfresh b boardCards w'.
  eassert (Hrun : createCard gen_random_uuid w = (Ret tt, _)).
  { unfold createCard, bind at 1, get. rewrite Ht, Hb. cbn [negb orb].
    unfold try_catch, bind at 1, insert_cards. rewrite request_done by done.
    unfold insertCard. rewrite Hfresh.
    cbv [bind ret orThrow setCards setNewCard setShowCardDialog
         setSelectedBoardId toast modify with_kanban emit fst snd].
    cbn [kanban cards db cards_tbl modal faults log]. reflexivity. }
  unfold w', exec. rewrite Hrun. cbn [snd kanban cards db cards_tbl].
  eexists. split.
  { by rewrite cardsOf_insert, decide_True. }
  split; [done|]. split; [done|]. split; [done|].
  split; [|by rewrite lookup_insert_eq].
  eexists. by rewrite lookup_insert_eq.
Qed.

Lemma createBoard_appends w :
  truthy (trim (newBoard (kanban w))) = true ->
  nextDone w ->
  boards_tbl (db w) !! gen_random_uuid (serial (db w)) = None ->
  let w' := exec (createBoard gen_random_uuid) w in
  exists data,
    boards (kanban w') = boards (kanban w) ++ [data]
    ∧ Board.position data = Z.of_nat (length (boards (kanban w)))
    ∧ br_position <$> boards_tbl (db w') !! Board.id data
      = Some (Z.of_nat (length (boards (kanban w)))).
Proof.
  intros Ht Hd Hfresh w'.
  eassert (Hrun : createBoard gen_random_uuid w = (Ret tt, _)).
  { unfold createBoard, bind at 1, get. rewrite Ht. cbn [negb].
    unfold try_catch, bind at 1, insert_boards. rewrite request_done by done.
    unfold insertBoard. rewrite Hfresh.
    cbv [bind ret orThrow setBoards setNewBoard setShowBoardDialog
         toast modify with_kanban emit fst snd].
    cbn [kanban boards db boards_tbl modal faults log]. reflexivity. }
  unfold w', exec. rewrite Hrun. cbn [snd kanban boards db boards_tbl].
  eexists. split; [done|]. split; [done|].
  by rewrite lookup_insert_eq.
Qed.
End CreationFacts.

(** C8.  A card created on a board showing [N] cards (title not blank, a
    board selected, the insert accepted under a fresh key) gets position
    [N] and an empty tag list, in the store and in memory, and is appended
    after the [N] cards shown.  Likewise a board created in a project
    showing [M] boards (name not blank, insert accepted) gets position [M]
    and is appended after them. *)
Theorem create_appends_last (gen_random_uuid : nat -> jsstring)
  (wc wb : World) :
  truthy (trim (nc_title (newCard (kanban wc)))) = true ->
  truthy (selectedBoardId (kanban wc)) = true ->
  nextDone wc ->
  cards_tbl (db wc) !! gen_random_uuid (serial (db wc)) = None ->
  truthy (trim (newBoard (kanban wb))) = true ->
  nextDone wb ->
  boards_tbl (db wb) !! gen_random_uuid (serial (db wb)) = None ->
  (let b := selectedBoardId (kanban wc) in
   let boardCards := cardsOf (cards (kanban wc)) b in
   let wc' := exec (createCard gen_random_uuid) wc in
   exists data,
     cardsOf (cards (kanban wc')) b = boardCards ++ [data]
     ∧ CardData.position data = Z.of_nat (length boardCards)
     ∧ CardData.tags data = []
     ∧ CardData.board_id data = b
     ∧ storedAt (cards_tbl (db wc')) (CardData.id data) b
         (Z.of_nat (length boardCards))
     ∧ cr_tags <$> cards_tbl (db wc') !! CardData.id data = Some [])
  ∧ (let wb' := exec (createBoard gen_random_uuid) wb in
     exists data,
       boards (kanban wb') = boards (kanban wb) ++ [data]
       ∧ Board.position data = Z.of_nat (length (boards (kanban wb)))
       ∧ br_position <$> boards_tbl (db wb') !! Board.id data
         = Some (Z.of_nat (length (boards (kanban wb))))).
Proof.
  intros. split; [by apply createCard_appends|by apply createBoard_appends].
Qed.

Lemma create_appends_last_witness :
  (exists data,
     cardsOf (cards (kanban (exec (createCard sampleUuid) formWorld))) (js "B")
     = cardsOf (cards (kanban formWorld)) (js "B") ++ [data]
     ∧ CardData.position data = 3)
  ∧ (exists data,
       boards (kanban (exec (createBoard sampleUuid) formWorld))
       = boards (kanban formWorld) ++ [data]
       ∧ Board.position data = 1).
Proof.
  destruct (create_appends_last sampleUuid formWorld formWorld)
    as [(c & Hc & Hp & _) (b & Hb & Hq & _)];
    [reflexivity..|].
  split; [by exists c|by exists b].
Defined.

(** ** Tags *)

Lemma onward_refl w : onward w w.
Proof. split; [done|]. exists []. by rewrite app_nil_r. Qed.

Lemma onward_same w w' : modal w' = modal w -> log w' = log w -> onward w w'.
Proof. intros Hm Hl. split; [done|]. exists []. by rewrite app_nil_r. Qed.

Lemma onward_trans w1 w2 w3 : onward w1 w2 -> onward w2 w3 -> onward w1 w3.
Proof.
  intros [Hm1 [r1 Hl1]] [Hm2 [r2 Hl2]]. split; [congruence|].
  exists (r1 ++ r2). by rewrite Hl2, Hl1, app_assoc.
Qed.

Lemma tame_ret {A} (a : A) : tame (ret a).
Proof. intros w. apply onward_refl. Qed.

Lemma tame_throw {A} e : tame (@throw A e).
Proof. intros w. apply onward_refl. Qed.

Lemma tame_get : tame get.
Proof. intros w. apply onward_refl. Qed.

Lemma tame_bind {A B} (m : M A) (k : A -> M B) :
  tame m -> (forall a, tame (k a)) -> tame (bind m k).
Proof.
  intros Hm Hk w. unfold bind. specialize (Hm w).
  destruct (m w) as [[a|e] w1]; [|done].
  eapply onward_trans; [exact Hm|]. apply Hk.
Qed.

Lemma tame_try_catch {A} (m : M A) (h : Exn -> M A) :
  tame m -> (forall e, tame (h e)) -> tame (try_catch m h).
Proof.
  intros Hm Hh w. unfold try_catch. specialize (Hm w).
  destruct (m w) as [[a|e] w1]; [done|].
  eapply onward_trans; [exact Hm|]. apply Hh.
Qed.

Lemma tame_kanban f : tame (modify (with_kanban f)).
Proof. intros w. by apply onward_same. Qed.

Lemma tame_emit e : tame (modify (emit e)).
Proof. intros w. split; [done|]. by exists [e]. Qed.

Lemma tame_outcome : tame outcome.
Proof.
  intros w. unfold outcome. destruct (faults w); by apply onward_same.
Qed.

Lemma tame_request {A} r (apply : Store -> Reply A * Store) :
  tame (request r apply).
Proof.
  unfold request. apply tame_bind; [apply tame_emit|]. intros _.
  apply tame_bind; [apply tame_outcome|]. intros [|m|m].
  - intros w. destruct (apply (db w)). by apply onward_same.
  - apply tame_ret.
  - apply tame_throw.
Qed.

Lemma tame_orThrow {A} (r : Reply A) : tame (orThrow r).
Proof. destruct r; [apply tame_ret|apply tame_throw]. Qed.

Lemma tame_fetchBoards : tame fetchBoards.
Proof.
  unfold fetchBoards. apply tame_bind; [|intros _; apply tame_kanban].
  apply tame_try_catch; [|intros _; apply tame_emit].
  apply tame_bind; [apply tame_get|]. intros w0.
  apply tame_bind; [apply tame_request|]. intros r1.
  apply tame_bind; [apply tame_orThrow|]. intros d1.
  apply tame_bind; [apply tame_request|]. intros r2.
  apply tame_bind; [apply tame_orThrow|]. intros d2.
  apply tame_bind; [apply tame_kanban|]. intros _. apply tame_kanban.
Qed.

Lemma update_cards_first k p w :
  exists r w1, update_cards k p w = (r, w1)
               ∧ modal w1 = modal w
               ∧ log w1 = log w ++ [Sent (UpdateCard k p)].
Proof.
  unfold update_cards, request, bind, modify, outcome. cbn.
  destruct (faults w) as [|[|m|m] fs] eqn:E; cbn; try rewrite E;
    eexists _, _; (split; [reflexivity|done]).
Qed.

Lemma updateCardTags_trace ts w :
  modal (exec (updateCardTags ts) w) = modal w
  ∧ exists rest,
      log (exec (updateCardTags ts) w)
      = log w
        ++ Sent (UpdateCard (CardData.id (card (modal w))) (tagsPatch ts))
        :: rest.
Proof.
  destruct (update_cards_first (CardData.id (card (modal w))) (tagsPatch ts) w)
    as (r & w1 & Hu & Hm & Hl).
  assert (Hrest : forall w2, onward w1 w2 ->
            modal w2 = modal w
            ∧ exists rest,
                log w2
                = log w
                  ++ Sent (UpdateCard (CardData.id (card (modal w)))
                             (tagsPatch ts)) :: rest).
  { intros w2 [Hm2 [rest Hl2]]. split; [congruence|]. exists rest.
    by rewrite Hl2, Hl, <- app_assoc. }
  cbv [exec updateCardTags try_catch bind get]. rewrite Hu.
  destruct r as [reply|e].
  - destruct reply as [[]|m]; cbn [orThrow ret throw].
    + pose proof (tame_fetchBoards w1) as Hf. unfold onCardUpdate.
      destruct (fetchBoards w1) as [[[]|e] w2]; cbn [snd] in *.
      * by apply Hrest.
      * apply Hrest. eapply onward_trans; [exact Hf|]. apply tame_emit.
    + apply Hrest. apply (tame_emit _ w1).
  - apply Hrest. apply (tame_emit _ w1).
Qed.

Lemma addTag_refused w : tagRefused (modal w) = true -> addTag w = (Ret tt, w).
Proof.
  intros H. unfold addTag, bind, get. unfold tagRefused in H. by rewrite H.
Qed.

Lemma addTag_accepted w :
  tagRefused (modal w) = false ->
  let ts := tags (modal w) ++ [newTag (modal w)] in
  tags (modal (exec addTag w)) = ts
  ∧ exists rest,
      log (exec addTag w)
      = log w
        ++ Sent (UpdateCard (CardData.id (card (modal w))) (tagsPatch ts))
        :: rest.
Proof.
  intros H ts. unfold tagRefused in H.
  cbv [exec addTag bind get]. rewrite H. fold ts.
  cbv [setTags setNewTag modify].
  set (w1 := with_modal _ w).
  destruct (updateCardTags_trace ts w1) as [Hm [rest Hl]].
  unfold exec in Hm, Hl.
  destruct (updateCardTags ts w1) as [[[]|e] w2];
    cbn [snd with_modal modal tags log] in *;
    rewrite Hm; (split; [done|]); by exists rest.
Qed.

Lemma truthy_nonempty s : s ≠ [] -> truthy s = true.
Proof. by destruct s. Qed.

Lemma addTag_NoDup w :
  NoDup (tags (modal w)) -> NoDup (tags (modal (exec addTag w))).
Proof.
  intros Hnd. destruct (tagRefused (modal w)) eqn:E.
  - unfold exec. by rewrite addTag_refused.
  - destruct (addTag_accepted w E) as [-> _].
    unfold tagRefused in E. apply orb_false_elim in E as [_ E].
    apply bool_decide_eq_false in E.
    apply NoDup_app. split; [done|]. split; [|apply NoDup_singleton].
    intros t Ht ->%list_elem_of_singleton. done.
Qed.

(** C9, as the code has it.  A tag already in the list (same code units,
    case included) is refused: nothing changes and no request is sent.  So
    is a tag that is blank once trimmed.  Any other tag is appended and an
    update carrying the longer list is sent.  A list without duplicates
    stays without duplicates. *)
Theorem addTag_rejects_duplicates (w : World) :
  let m := modal w in
  let t := newTag m in
  (t ∈ tags m -> addTag w = (Ret tt, w))
  ∧ (trim t = [] -> addTag w = (Ret tt, w))
  ∧ (t ∉ tags m -> trim t ≠ [] ->
     tags (modal (exec addTag w)) = tags m ++ [t]
     ∧ exists rest,
         log (exec addTag w)
         = log w
           ++ Sent (UpdateCard (CardData.id (card m)) (tagsPatch (tags m ++ [t])))
           :: rest)
  ∧ (NoDup (tags m) -> NoDup (tags (modal (exec addTag w)))).
Proof.
  intros m t. split; [|split; [|split]].
  - intros Hin. apply addTag_refused. unfold tagRefused.
    rewrite bool_decide_eq_true_2 by done. apply orb_true_r.
  - intros Hb. apply addTag_refused. unfold tagRefused. fold m t.
    by rewrite Hb.
  - intros Hnin Hnb. apply addTag_accepted. unfold tagRefused. fold m t.
    rewrite truthy_nonempty by done.
    by rewrite bool_decide_eq_false_2.
  - apply addTag_NoDup.
Qed.

Lemma addTag_rejects_duplicates_witness :
  addTag (tagWorld [js "bug"] (js "bug") []) = (Ret tt, tagWorld [js "bug"] (js "bug") [])
  ∧ tags (modal (exec addTag (tagWorld [js "bug"] (js "Bug") [])))
    = [js "bug"; js "Bug"].
Proof.
  split.
  - refine (proj1 (addTag_rejects_duplicates (tagWorld [js "bug"] (js "bug") [])) _).
    apply elem_of_cons. by left.
  - refine (proj1 (proj1 (proj2 (proj2
      (addTag_rejects_duplicates (tagWorld [js "bug"] (js "Bug") []))))
      _ _)).
    + by apply (bool_decide_unpack _).
    + discriminate.
Defined.

(** C9 as stated fails for a blank tag: it is not in the list, and yet it
    is not appended. *)
Lemma blank_tag_not_appended :
  let w := tagWorld [js "bug"] (js " ") [] in
  (newTag (modal w) ∉ tags (modal w))
  ∧ tags (modal (exec addTag w)) = tags (modal w)
  ∧ tags (modal (exec addTag w)) ≠ tags (modal w) ++ [newTag (modal w)]
  ∧ log (exec addTag w) = [].
Proof.
  split; [by apply (bool_decide_unpack _)|].
  split; [by vm_compute|]. split; [|by vm_compute].
  vm_compute. discriminate.
Qed.


(** * Further properties *)

(** ** Loading the boards *)

Lemma fetchBoards_done w : nextTwoDone w -> fetchBoards w = (Ret tt, fetched w).
Proof.
  intros [H1 H2]. unfold fetchBoards, try_catch, bind at 1, bind at 1, get.
  unfold bind at 1, select_boards. rewrite request_done by done.
  cbn [fst snd orThrow]. unfold bind at 1, ret at 1.
  unfold bind at 1, select_cards. rewrite request_done.
  2:{ unfold nextDone. cbn [faults]. exact H2. }
  cbn [fst snd orThrow kanban db faults log].
  cbv [bind ret setBoards setCards setLoading modify with_kanban].
  unfold fetched. cbn [kanban projectId boards cards loading showBoardDialog
    showCardDialog selectedBoardId newBoard newCard modal db faults log].
  by rewrite <- app_assoc.
Qed.

Lemma cardsOf_pushCard m c b :
  cardsOf (pushCard m c) b
  = if decide (CardData.board_id c = b) then cardsOf m b ++ [c] else cardsOf m b.
Proof.
  unfold pushCard. rewrite cardsOf_insert.
  by destruct (decide (CardData.board_id c = b)) as [->|].
Qed.

(** Grouping keeps, for every board, its cards in the order they came. *)
Lemma cardsOf_grouped l m b :
  cardsOf (foldl pushCard m l) b
  = cardsOf m b ++ filter (fun c => CardData.board_id c = b) l.
Proof.
  revert m. induction l as [|c l IH]; intros m.
  - by rewrite app_nil_r.
  - cbn [foldl]. rewrite IH, cardsOf_pushCard, filter_cons.
    destruct (decide (CardData.board_id c = b)); [|done].
    by rewrite <- app_assoc.
Qed.

Lemma cardsOf_grouped_empty l b :
  cardsOf (foldl pushCard ∅ l) b = filter (fun c => CardData.board_id c = b) l.
Proof. rewrite cardsOf_grouped. unfold cardsOf. by rewrite lookup_empty. Qed.

Lemma elem_of_selectCards bs s c :
  c ∈ selectCards bs s
  ↔ exists k r, cards_tbl s !! k = Some r ∧ cr_board_id r ∈ bs ∧ c = toCard k r.
Proof.
  unfold selectCards. rewrite merge_sort_Permutation, list_elem_of_fmap. split.
  - intros ([k r] & -> & [Hb Hr%elem_of_map_to_list]%list_elem_of_filter).
    by exists k, r.
  - intros (k & r & Hr & Hb & ->). exists (k, r). split; [done|].
    apply list_elem_of_filter. split; [done|]. by apply elem_of_map_to_list.
Qed.

Lemma elem_of_selectBoards pid s b :
  b ∈ selectBoards pid s
  ↔ exists k r, boards_tbl s !! k = Some r ∧ br_project_id r = pid
                ∧ b = toBoard k r.
Proof.
  unfold selectBoards. rewrite merge_sort_Permutation, list_elem_of_fmap. split.
  - intros ([k r] & -> & [Hb Hr%elem_of_map_to_list]%list_elem_of_filter).
    by exists k, r.
  - intros (k & r & Hr & Hb & ->). exists (k, r). split; [done|].
    apply list_elem_of_filter. split; [done|]. by apply elem_of_map_to_list.
Qed.

Lemma toCard_inj k1 r1 k2 r2 : toCard k1 r1 = toCard k2 r2 -> k1 = k2 ∧ r1 = r2.
Proof. destruct r1, r2. unfold toCard. cbn. by intros [= -> -> -> -> -> -> -> ->]. Qed.

Lemma selectCards_NoDup bs s : NoDup (ids (selectCards bs s)).
Proof.
  unfold selectCards, ids. rewrite merge_sort_Permutation.
  rewrite <- list_fmap_compose.
  apply (sublist_NoDup _ _ (NoDup_fst_map_to_list (cards_tbl s))).
  erewrite list_fmap_ext; [apply fmap_sublist, sublist_filter|].
  by intros i [k r] _.
Qed.

Lemma ids_filter_NoDup (P : CardData.t -> Prop) `{forall c, Decision (P c)} l :
  NoDup (ids l) -> NoDup (ids (filter P l)).
Proof.
  intros Hnd. apply (sublist_NoDup _ _ Hnd). apply fmap_sublist, sublist_filter.
Qed.

(** X1.  When both reads are answered, the arrays show exactly the stored
    cards of the boards of the project, each under the board its row
    refers to and none twice; the boards shown are exactly the stored
    boards of the project; the store itself is not written to and the
    loading flag is cleared. *)
Theorem fetchBoards_shows_stored_cards (w : World) :
  nextTwoDone w ->
  let w' := exec fetchBoards w in
  let pid := projectId (kanban w) in
  (forall b c,
     c ∈ cardsOf (cards (kanban w')) b
     ↔ exists k r rb,
         cards_tbl (db w) !! k = Some r ∧ c = toCard k r ∧ cr_board_id r = b
         ∧ boards_tbl (db w) !! b = Some rb ∧ br_project_id rb = pid)
  ∧ (forall b, NoDup (ids (cardsOf (cards (kanban w')) b)))
  ∧ (forall bd,
       bd ∈ boards (kanban w')
       ↔ exists k rb, boards_tbl (db w) !! k = Some rb ∧ br_project_id rb = pid
                      ∧ bd = toBoard k rb)
  ∧ db w' = db w
  ∧ loading (kanban w') = false.
Proof.
  intros Hd w' pid. unfold w', exec. rewrite fetchBoards_done by done.
  cbn [snd fetched kanban cards boards db loading]. fold pid.
  split; [|split; [|split; [|done]]].
  - intros b c. rewrite cardsOf_grouped_empty, list_elem_of_filter.
    rewrite elem_of_selectCards. split.
    + intros (Hb & k & r & Hr & Hin & ->).
      apply list_elem_of_fmap in Hin as (bd & Hbd & Hin).
      apply elem_of_selectBoards in Hin as (kb & rb & Hrb & Hp & ->).
      cbn in Hbd, Hb. subst. by exists k, r, rb.
    + intros (k & r & rb & Hr & -> & Hb & Hrb & Hp). split; [done|].
      exists k, r. split; [done|]. split; [|done].
      apply list_elem_of_fmap. exists (toBoard b rb). split; [by rewrite Hb|].
      apply elem_of_selectBoards. by exists b, rb.
  - intros b. rewrite cardsOf_grouped_empty.
    apply ids_filter_NoDup, selectCards_NoDup.
  - intros bd. apply elem_of_selectBoards.
Qed.

Lemma fetchBoards_shows_stored_cards_witness :
  sampleCard "Y" "B" 1 ∈ cardsOf (cards (kanban (exec fetchBoards (oneBoard []))))
                           (js "B").
Proof.
  refine (proj2 (proj1 (fetchBoards_shows_stored_cards (oneBoard []) _)
                   (js "B") (sampleCard "Y" "B" 1)) _).
  - by split.
  - exists (js "Y"), (sampleRow "Y" "B" 1),
      {| br_name := js "Doing"; br_project_id := js "proj"; br_position := 0 |}.
    by vm_compute.
Defined.

#[global] Instance by_position_total {A} (pos : A -> Z) : Total (by_position pos).
Proof. intros x y. unfold by_position. lia. Qed.

#[global] Instance by_position_trans {A} (pos : A -> Z) :
  Transitive (by_position pos).
Proof. intros x y z. unfold by_position. lia. Qed.

Lemma StronglySorted_filter {A} (R : relation A) (P : A -> Prop)
  `{forall x, Decision (P x)} l :
  StronglySorted R l -> StronglySorted R (filter P l).
Proof.
  induction 1 as [|x l Hl IH Hx]; [constructor|].
  rewrite filter_cons. destruct (decide (P x)); [|done].
  constructor; [done|].
  apply Forall_forall. intros y [_ Hy]%list_elem_of_filter.
  by eapply Forall_forall in Hx.
Qed.

(** X2.  When both reads are answered, the boards are shown in ascending
    order of their stored position, and so are the cards of every board:
    a card never precedes one with a smaller position. *)
Theorem fetchBoards_sorted (w : World) :
  nextTwoDone w ->
  let w' := exec fetchBoards w in
  StronglySorted (by_position Board.position) (boards (kanban w'))
  ∧ forall b i j ci cj,
      cardsOf (cards (kanban w')) b !! i = Some ci ->
      cardsOf (cards (kanban w')) b !! j = Some cj ->
      (i < j)%nat ->
      CardData.position ci <= CardData.position cj.
Proof.
  intros Hd w'. unfold w', exec. rewrite fetchBoards_done by done.
  cbn [snd fetched kanban cards boards]. split.
  - apply StronglySorted_merge_sort; apply _.
  - intros b i j ci cj Hi Hj Hij. rewrite cardsOf_grouped_empty in Hi, Hj.
    assert (Hs : StronglySorted (by_position CardData.position)
                   (filter (fun c => CardData.board_id c = b)
                      (selectCards (Board.id <$> selectBoards
                                      (projectId (kanban w)) (db w)) (db w)))).
    { apply StronglySorted_filter, StronglySorted_merge_sort; apply _. }
    revert Hs Hi Hj Hij. generalize (filter (fun c => CardData.board_id c = b)
      (selectCards (Board.id <$> selectBoards (projectId (kanban w)) (db w))
         (db w))).
    intros l Hs. revert i j. induction Hs as [|x l Hl IH Hx]; intros i j Hi Hj Hij.
    + done.
    + destruct j as [|j]; [lia|]. destruct i as [|i].
      * cbn in Hi, Hj. injection Hi as <-.
        eapply Forall_forall in Hx; [exact Hx|].
        apply list_elem_of_lookup. eauto.
      * cbn in Hi, Hj. apply (IH i j); [done..|lia].
Qed.

Lemma fetchBoards_sorted_witness :
  CardData.position (sampleCard "X" "B" 0) <= CardData.position (sampleCard "Z" "B" 2).
Proof.
  refine (proj2 (fetchBoards_sorted (oneBoard []) _) (js "B") 0%nat 2%nat
            (sampleCard "X" "B" 0) (sampleCard "Z" "B" 2) _ _ _).
  - by split.
  - by vm_compute.
  - by vm_compute.
  - lia.
Defined.

(** ** A read that fails *)

Lemma request_failed {A} (r : Request) (apply : Store -> Reply A * Store)
  w m fs :
  faults w = Failed m :: fs ->
  request r apply w
  = (Ret (PgError m),
     {| kanban := kanban w; modal := modal w; db := db w;
        faults := fs; log := log w ++ [Sent r] |}).
Proof.
  intros E. unfold request, bind, modify, outcome. cbn. by rewrite E.
Qed.

Lemma request_rejected {A} (r : Request) (apply : Store -> Reply A * Store)
  w m fs :
  faults w = Rejected m :: fs ->
  request r apply w
  = (Throw (Error m),
     {| kanban := kanban w; modal := modal w; db := db w;
        faults := fs; log := log w ++ [Sent r] |}).
Proof.
  intros E. unfold request, bind, modify, outcome. cbn. by rewrite E.
Qed.

Ltac run_fetch_failure :=
  cbv [bind ret throw orThrow console_error setLoading modify emit with_kanban];
  cbn [fst snd kanban boards cards loading db log faults modal];
  eexists; (split; [reflexivity|]);
  cbn [kanban boards cards loading db log];
  repeat split; apply last_snoc.

Lemma fetchBoards_failed (w : World) :
  ¬ nextTwoDone w ->
  exists w',
    fetchBoards w = (Ret tt, w')
    ∧ boards (kanban w') = boards (kanban w)
    ∧ cards (kanban w') = cards (kanban w)
    ∧ db w' = db w
    ∧ loading (kanban w') = false
    ∧ last (log w') = Some (ConsoleError "Error fetching boards:").
Proof.
  intros Hn. unfold fetchBoards, try_catch, bind at 1, bind at 1, get.
  unfold bind at 1, select_boards.
  destruct (faults w) as [|o1 fs1] eqn:E1.
  { destruct Hn. split; unfold nextDone; by rewrite E1. }
  destruct o1 as [|m|m].
  - rewrite request_done by (unfold nextDone; by rewrite E1).
    cbn [fst snd orThrow]. unfold bind at 1, ret at 1.
    unfold bind at 1, select_cards.
    destruct fs1 as [|o2 fs2].
    { destruct Hn. split; unfold nextDone; by rewrite E1. }
    destruct o2 as [|m|m].
    + destruct Hn. split; unfold nextDone; by rewrite E1.
    + erewrite request_failed; [|cbn [faults]; by rewrite E1].
      run_fetch_failure.
    + erewrite request_rejected; [|cbn [faults]; by rewrite E1].
      run_fetch_failure.
  - erewrite request_failed by done. run_fetch_failure.
  - erewrite request_rejected by done. run_fetch_failure.
Qed.

(** X3.  When one of the two reads fails, resolved with an error or
    rejected, [fetchBoards] still returns normally: the boards and cards on
    display are left as they were, the store is not written to, the loading
    flag is cleared and the last thing recorded is the console error. *)
Theorem fetchBoards_read_failure (w : World) :
  ¬ nextTwoDone w ->
  exists w',
    fetchBoards w = (Ret tt, w')
    ∧ boards (kanban w') = boards (kanban w)
    ∧ cards (kanban w') = cards (kanban w)
    ∧ db w' = db w
    ∧ loading (kanban w') = false
    ∧ last (log w') = Some (ConsoleError "Error fetching boards:").
Proof. apply fetchBoards_failed. Qed.

Lemma fetchBoards_read_failure_witness :
  exists w',
    fetchBoards (oneBoard [Done; Failed "timeout"]) = (Ret tt, w')
    ∧ cards (kanban w') = cards (kanban (oneBoard [Done; Failed "timeout"])).
Proof.
  destruct (fetchBoards_read_failure (oneBoard [Done; Failed "timeout"]))
    as (w' & Hrun & _ & Hc & _).
  - intros [_ H]. discriminate H.
  - by exists w'.
Defined.

(** ** Loading puts memory and store in step *)

Lemma seq_sorted s n : StronglySorted Z.le (Z.of_nat <$> seq s n).
Proof.
  revert s. induction n as [|n IH]; intros s; [constructor|].
  cbn. constructor; [apply IH|].
  apply Forall_forall. intros z (i & -> & Hi%elem_of_seq)%list_elem_of_fmap. lia.
Qed.

Section Loaded.
Context (bs : list jsstring) (s : Store) (b : jsstring).
Hypothesis shown : b ∈ bs.
Hypothesis dense : densePositions (cards_tbl s) b.

Local Abbreviation shownCards :=
  (filter (fun c => CardData.board_id c = b) (selectCards bs s)).

Lemma elem_of_shownCards c :
  c ∈ shownCards
  ↔ exists k r, cards_tbl s !! k = Some r ∧ cr_board_id r = b ∧ c = toCard k r.
Proof using shown.
  rewrite list_elem_of_filter, elem_of_selectCards. split.
  - intros (Hb & k & r & Hr & _ & ->). by exists k, r.
  - intros (k & r & Hr & Hb & ->). split; [done|]. exists k, r.
    by rewrite Hb.
Qed.

Lemma shownCards_rows :
  shownCards ≡ₚ (fun kr => toCard kr.1 kr.2) <$> boardRows (cards_tbl s) b.
Proof using shown.
  apply NoDup_Permutation.
  - apply (NoDup_fmap_1 CardData.id).
    apply (ids_filter_NoDup _ _ (selectCards_NoDup bs s)).
  - apply (NoDup_fmap_1 CardData.id). rewrite <- list_fmap_compose.
    erewrite list_fmap_ext; [apply boardRows_NoDup|]. by intros i [k r] _.
  - intros c. rewrite elem_of_shownCards, list_elem_of_fmap. split.
    + intros (k & r & Hr & Hb & ->). exists (k, r). split; [done|].
      by apply elem_of_boardRows.
    + intros ([k r] & -> & [Hr Hb]%elem_of_boardRows). by exists k, r.
Qed.

Lemma shownCards_positions :
  CardData.position <$> shownCards
  = Z.of_nat <$> seq 0 (length shownCards).
Proof using shown dense.
  assert (Hp : CardData.position <$> shownCards
               ≡ₚ Z.of_nat <$> seq 0 (length shownCards)).
  { rewrite (Permutation_length shownCards_rows), length_fmap.
    rewrite shownCards_rows, <- list_fmap_compose.
    unfold densePositions in dense. rewrite <- dense.
    erewrite list_fmap_ext; [done|]. by intros i [k r] _. }
  refine (StronglySorted_unique_strong Z.le _ _ _ _ _ Hp).
  - intros; lia.
  - apply (StronglySorted_fmap _ (by_position CardData.position)); [done|].
    apply StronglySorted_filter, StronglySorted_merge_sort; apply _.
  - apply seq_sorted.
Qed.

Lemma shownCards_position i c :
  shownCards !! i = Some c -> CardData.position c = Z.of_nat i.
Proof using shown dense.
  intros Hc. pose proof shownCards_positions as Hp.
  apply (f_equal (fun l => l !! i)) in Hp.
  rewrite !list_lookup_fmap, Hc in Hp. cbn in Hp.
  apply lookup_lt_Some in Hc. rewrite lookup_seq_lt in Hp by done.
  by injection Hp.
Qed.
End Loaded.

Lemma fetched_synced (w : World) :
  (forall k rb, boards_tbl (db w) !! k = Some rb ->
                br_project_id rb = projectId (kanban w) ->
                densePositions (cards_tbl (db w)) k) ->
  synced (fetched w).
Proof.
  intros Hdense.
  unfold synced, scope. cbn [snd fetched kanban cards boards db].
  set (bs := Board.id <$> selectBoards (projectId (kanban w)) (db w)).
  assert (Hbs : forall b, b ∈ bs -> densePositions (cards_tbl (db w)) b).
  { intros b (bd & -> & Hin)%list_elem_of_fmap.
    apply elem_of_selectBoards in Hin as (k & rb & Hrb & Hp & ->).
    by eapply Hdense. }
  split.
  - intros b i c. rewrite cardsOf_grouped_empty. intros Hc.
    assert (Hin : c ∈ filter (fun c => CardData.board_id c = b)
                        (selectCards bs (db w)))
      by (apply list_elem_of_lookup; eauto).
    apply list_elem_of_filter in Hin as [Hb Hin].
    apply elem_of_selectCards in Hin as (k & r & Hr & Hbin & ->).
    cbn in Hb. subst b. exists r. split; [done|]. split; [done|].
    by apply (shownCards_position bs (db w) (cr_board_id r) Hbin (Hbs _ Hbin) i
                (toCard k r)).
  - intros k r Hr Hbin. rewrite cardsOf_grouped_empty.
    assert (Hin : toCard k r ∈ filter (fun c => CardData.board_id c = cr_board_id r)
                                 (selectCards bs (db w))).
    { apply elem_of_shownCards; [done|]. by exists k, r. }
    apply list_elem_of_lookup in Hin as [i Hi]. exists i, (toCard k r).
    split; [done|]. split; [done|].
    by apply (shownCards_position bs (db w) (cr_board_id r) Hbin (Hbs _ Hbin) i
                (toCard k r)).
Qed.

(** X4.  If the stored positions of every board of the project are
    [0 .. count-1], a load whose two reads are answered puts memory and
    store in step: every card is shown under its stored board at the index
    equal to its stored position. *)
Theorem fetchBoards_synced (w : World) :
  nextTwoDone w ->
  (forall k rb, boards_tbl (db w) !! k = Some rb ->
                br_project_id rb = projectId (kanban w) ->
                densePositions (cards_tbl (db w)) k) ->
  synced (exec fetchBoards w).
Proof.
  intros Hd Hdense. unfold exec. rewrite fetchBoards_done by done.
  by apply fetched_synced.
Qed.

Lemma fetchBoards_synced_witness : synced (exec fetchBoards (oneBoard [])).
Proof.
  apply fetchBoards_synced.
  - by split.
  - intros k rb Hk _.
    apply (inSync_dense _ _ _ k (oneBoard_synced [])).
    cbn in Hk. apply lookup_insert_Some in Hk as [[<- _]|[_ Hk]].
    + apply elem_of_cons. by left.
    + by rewrite lookup_empty in Hk.
Defined.

(** ** What the drag handler lets escape *)

Lemma safe_ret {A} (a : A) : safe (ret a).
Proof. intros w. by exists a, w. Qed.

Lemma safe_modify f : safe (modify f).
Proof. intros w. by exists tt, (f w). Qed.

Lemma safe_bind {A B} (m : M A) (k : A -> M B) :
  safe m -> (forall a, safe (k a)) -> safe (bind m k).
Proof.
  intros Hm Hk w. unfold bind. destruct (Hm w) as (a & w1 & ->). apply Hk.
Qed.

Lemma safe_try_catch {A} (m : M A) (h : Exn -> M A) :
  (forall e, safe (h e)) -> safe (try_catch m h).
Proof.
  intros Hh w. unfold try_catch. destruct (m w) as [[a|e] w1]; [by eauto|].
  apply Hh.
Qed.

Lemma safe_fetchBoards : safe fetchBoards.
Proof.
  unfold fetchBoards. apply safe_bind; [|intros _; apply safe_modify].
  apply safe_try_catch. intros _. apply safe_modify.
Qed.

Lemma safe_handleDragEnd_persist result dst destCards sourceCards :
  safe (handleDragEnd_persist result dst destCards sourceCards).
Proof.
  unfold handleDragEnd_persist. apply safe_try_catch. intros _.
  apply safe_bind; [apply safe_modify|]. intros _.
  apply safe_bind; [apply safe_fetchBoards|]. intros _. apply safe_modify.
Qed.

Lemma handleDragEnd_stale_source_run w result dst :
  destination result = Some dst ->
  ¬ isNoop (source result) dst ->
  cardsOf (cards (kanban w)) (droppableId (source result))
    !! index (source result) = None ->
  exists e, handleDragEnd result w = (Throw e, w).
Proof.
  intros Hd Hn Hc. unfold handleDragEnd, handleDragEnd_local, bind at 1.
  rewrite Hd. destruct (decide _) as [H|_]; [by destruct Hn|].
  unfold bind, get, rearrange. rewrite Hc. by eexists.
Qed.

(** X5.  A move that is not a no-op and whose source index holds no card
    (a stale index) makes the handler throw before anything is changed:
    the arrays, the store and the trace are what they were. *)
Theorem handleDragEnd_stale_source (w : World) (result : DropResult)
  (dst : Location) :
  destination result = Some dst ->
  ¬ isNoop (source result) dst ->
  cardsOf (cards (kanban w)) (droppableId (source result))
    !! index (source result) = None ->
  exists e, handleDragEnd result w = (Throw e, w).
Proof. apply handleDragEnd_stale_source_run. Qed.

Lemma handleDragEnd_stale_source_witness :
  exists e, handleDragEnd (drag "X" "B" 7 "B" 0) (oneBoard []) = (Throw e, oneBoard []).
Proof.
  apply (handleDragEnd_stale_source _ _ {| droppableId := js "B"; index := 0 |}).
  - done.
  - intros [_ H]. discriminate H.
  - by vm_compute.
Defined.

(** X6.  In every other case the handler returns normally, whatever the
    store answers: a write that is refused or rejects, and a reload that
    fails after it, never make [handleDragEnd] throw. *)
Theorem handleDragEnd_swallows_store_failures (w : World) (result : DropResult) :
  (forall dst, destination result = Some dst ->
               ¬ isNoop (source result) dst ->
               is_Some (cardsOf (cards (kanban w)) (droppableId (source result))
                          !! index (source result))) ->
  exists w', handleDragEnd result w = (Ret tt, w').
Proof.
  intros Hc. destruct (destination result) as [dst|] eqn:Hd.
  2:{ exists w. by apply handleDragEnd_no_destination. }
  destruct (decide (isNoop (source result) dst)) as [Hn|Hn].
  { exists w. by apply handleDragEnd_same_place with dst. }
  destruct (Hc dst eq_refl Hn) as [c Hcard].
  destruct (rearrange_landing _ _ dst _ Hcard) as (nc & dC & sC & Hr & _).
  unfold handleDragEnd, bind.
  rewrite (handleDragEnd_local_run _ _ _ _ _ _ Hd Hn Hr), Hd.
  destruct (safe_handleDragEnd_persist result dst dC sC (exec (setCards nc) w))
    as ([] & w' & ->).
  by exists w'.
Qed.

Lemma handleDragEnd_swallows_store_failures_witness :
  exists w',
    handleDragEnd (drag "X" "B" 0 "B" 2)
      (oneBoard [Rejected "offline"; Rejected "offline"]) = (Ret tt, w').
Proof.
  apply handleDragEnd_swallows_store_failures.
  intros dst _ _. by exists (sampleCard "X" "B" 0).
Defined.

(** ** The rearrangement, card by card *)

Lemma cardsOf_rearranged cs src dst c :
  cardsOf cs (droppableId src) !! index src = Some c ->
  exists newCards destCards sourceCards,
    rearrange cs src dst = Some (newCards, destCards, sourceCards)
    ∧ forall b,
        cardsOf newCards b
        = if decide (b = droppableId dst)
          then splice_in (index dst)
                 (CardData.set_board_id (droppableId dst) c) (landing cs src dst)
          else if decide (b = droppableId src)
               then delete (index src) (cardsOf cs (droppableId src))
               else cardsOf cs b.
Proof.
  intros Hc. destruct src as [a i], dst as [d j]. unfold landing. cbn in *.
  destruct (decide (a = d)) as [<-|Had].
  - rewrite (rearrange_same _ _ _ j _ Hc). cbv zeta.
    eexists _, _, _. split; [done|]. intros b. rewrite cardsOf_insert.
    destruct (decide (a = b)) as [<-|Hb].
    + by rewrite decide_True.
    + by rewrite !decide_False by congruence.
  - rewrite (rearrange_cross _ _ _ _ j _ Had Hc).
    eexists _, _, _. split; [done|]. intros b. rewrite !cardsOf_insert.
    destruct (decide (d = b)) as [<-|Hdb].
    + by rewrite decide_True.
    + rewrite (decide_False (P := b = d)) by congruence.
      destruct (decide (a = b)) as [<-|Hab].
      * by rewrite decide_True.
      * by rewrite decide_False by congruence.
Qed.

(** The arrays in memory once the handler is through, when no write
    rejects. *)
Lemma handleDragEnd_arrays w result dst c :
  destination result = Some dst ->
  ¬ isNoop (source result) dst ->
  cardsOf (cards (kanban w)) (droppableId (source result))
    !! index (source result) = Some c ->
  noReject (faults w) ->
  forall b,
    cardsOf (cards (kanban (exec (handleDragEnd result) w))) b
    = if decide (b = droppableId dst)
      then splice_in (index dst)
             (CardData.set_board_id (droppableId dst) c)
             (landing (cards (kanban w)) (source result) dst)
      else if decide (b = droppableId (source result))
           then delete (index (source result))
                  (cardsOf (cards (kanban w)) (droppableId (source result)))
           else cardsOf (cards (kanban w)) b.
Proof.
  intros Hd Hn Hc Hf b.
  destruct (cardsOf_rearranged _ _ dst _ Hc) as (nc & dC & sC & Hr & Hnc).
  unfold exec. rewrite (handleDragEnd_run _ _ _ _ _ _ Hd Hn Hr Hf).
  cbn [snd]. rewrite settle_kanban. apply Hnc.
Qed.

(** X7.  A move loses no card and shows none twice: when no write
    rejects, the keys shown on the two boards involved are, taken together,
    the keys shown there before, and every other board keeps its array. *)
Theorem handleDragEnd_conserves_cards (w : World) (result : DropResult)
  (dst : Location) (c : CardData.t) :
  destination result = Some dst ->
  ¬ isNoop (source result) dst ->
  cardsOf (cards (kanban w)) (droppableId (source result))
    !! index (source result) = Some c ->
  noReject (faults w) ->
  let a := droppableId (source result) in
  let d := droppableId dst in
  let cs := cards (kanban w) in
  let cs' := cards (kanban (exec (handleDragEnd result) w)) in
  (a = d -> ids (cardsOf cs' d) ≡ₚ ids (cardsOf cs d))
  ∧ (a ≠ d ->
     ids (cardsOf cs' d) ++ ids (cardsOf cs' a)
     ≡ₚ ids (cardsOf cs d) ++ ids (cardsOf cs a))
  ∧ (forall b, b ≠ a -> b ≠ d -> cardsOf cs' b = cardsOf cs b).
Proof.
  intros Hd Hn Hc Hf a d cs cs'.
  pose proof (handleDragEnd_arrays _ _ _ _ Hd Hn Hc Hf) as Harr.
  fold a d cs cs' in Harr. fold a cs in Hc. split; [|split].
  - intros Had. rewrite Harr, decide_True by done.
    rewrite ids_splice_in. cbn. unfold landing. fold a d cs.
    rewrite decide_True by done. rewrite <- Had. symmetry. by apply ids_delete.
  - intros Had. rewrite !Harr, decide_True by done.
    rewrite decide_False, decide_True by done.
    rewrite ids_splice_in. cbn. unfold landing. fold a d cs.
    rewrite decide_False by done.
    rewrite (ids_delete _ _ _ Hc). cbn.
    by rewrite <- Permutation_middle.
  - intros b Ha Hb. by rewrite Harr, !decide_False.
Qed.

Lemma handleDragEnd_conserves_cards_witness :
  ids (cardsOf (cards (kanban (exec (handleDragEnd (drag "P" "A" 0 "B" 1))
                                  (twoBoards []))))
         (js "B"))
  ++ ids (cardsOf (cards (kanban (exec (handleDragEnd (drag "P" "A" 0 "B" 1))
                                     (twoBoards []))))
            (js "A"))
  ≡ₚ [js "R"; js "P"; js "Q"].
Proof.
  refine (proj1 (proj2 (handleDragEnd_conserves_cards (twoBoards [])
    (drag "P" "A" 0 "B" 1) {| droppableId := js "B"; index := 1 |}
    (sampleCard "P" "A" 0) eq_refl _ eq_refl _)) _).
  - intros [H _]. discriminate H.
  - constructor.
  - discriminate.
Defined.

Lemma delete_splice_in {A} j (x : A) l :
  (j <= length l)%nat -> delete j (splice_in j x l) = l.
Proof.
  intros Hj. unfold splice_in.
  assert (Hlen : j = length (take j l)) by (rewrite length_take; lia).
  rewrite Hlen at 1. rewrite delete_middle. apply take_drop.
Qed.

Lemma splice_in_delete {A} i (x : A) l :
  l !! i = Some x -> splice_in i x (delete i l) = l.
Proof.
  intros Hx. unfold splice_in. rewrite delete_take_drop.
  assert (Hlen : i = length (take i l)).
  { apply lookup_lt_Some in Hx. rewrite length_take. lia. }
  rewrite (take_app_length' _ _ _ Hlen), (drop_app_length' _ _ _ Hlen).
  by apply take_drop_middle.
Qed.

Lemma set_board_id_twice a d c :
  CardData.board_id c = a ->
  CardData.set_board_id a (CardData.set_board_id d c) = c.
Proof. intros <-. by destruct c. Qed.

Lemma handleDragEnd_noReject w result :
  noReject (faults w) -> noReject (faults (exec (handleDragEnd result) w)).
Proof.
  intros Hf. destruct (destination result) as [dst|] eqn:Hd.
  2:{ unfold exec. by rewrite handleDragEnd_no_destination. }
  destruct (decide (isNoop (source result) dst)) as [Hn|Hn].
  { unfold exec. by rewrite (handleDragEnd_same_place _ _ _ Hd Hn). }
  destruct (cardsOf (cards (kanban w)) (droppableId (source result))
              !! index (source result)) as [c|] eqn:Hc.
  - destruct (rearrange_landing _ _ dst _ Hc) as (nc & dC & sC & Hr & _).
    unfold exec. rewrite (handleDragEnd_run _ _ _ _ _ _ Hd Hn Hr Hf).
    by apply settle_noReject.
  - unfold exec.
    by destruct (handleDragEnd_stale_source_run w result dst Hd Hn Hc) as [e ->].
Qed.

(** X8.  Dragging a card to a place inside the landing array and dragging
    it back restores the display: when no write rejects, every board shows
    after the second move the array it showed before the first. *)
Theorem drag_back_restores (w : World) (result : DropResult)
  (dst : Location) (c : CardData.t) :
  destination result = Some dst ->
  ¬ isNoop (source result) dst ->
  cardsOf (cards (kanban w)) (droppableId (source result))
    !! index (source result) = Some c ->
  CardData.board_id c = droppableId (source result) ->
  (index dst <= length (landing (cards (kanban w)) (source result) dst))%nat ->
  noReject (faults w) ->
  let back :=
    {| destination := Some (source result); source := dst;
       draggableId := draggableId result |} in
  forall b,
    cardsOf (cards (kanban (exec (handleDragEnd back)
                              (exec (handleDragEnd result) w)))) b
    = cardsOf (cards (kanban w)) b.
Proof.
  intros Hd Hn Hc Hboard Hj Hf back b.
  set (a := droppableId (source result)) in *.
  set (d := droppableId dst) in *.
  set (c' := CardData.set_board_id d c).
  pose proof (handleDragEnd_arrays _ _ _ _ Hd Hn Hc Hf) as H1.
  fold a d c' in H1.
  set (w1 := exec (handleDragEnd result) w) in *.
  assert (Hc1 : cardsOf (cards (kanban w1)) (droppableId (source back))
                  !! index (source back) = Some c').
  { cbn. fold d. rewrite H1, decide_True by done. by apply splice_in_lookup. }
  assert (Hn1 : ¬ isNoop (source back) (source result)).
  { intros [E1 E2]. apply Hn. by split. }
  pose proof (handleDragEnd_arrays w1 back (source result) c' eq_refl Hn1 Hc1
                (handleDragEnd_noReject _ _ Hf)) as H2.
  cbn [source back] in H2. fold a d in H2.
  rewrite H2. unfold c'. rewrite set_board_id_twice by done.
  unfold landing in *. cbn [source back] in *. fold a d in Hj |- *.
  destruct (decide (b = a)) as [->|Hba].
  - destruct (decide (d = a)) as [Hda|Hda].
    + rewrite H1, decide_True by done.
      rewrite decide_True in Hj |- * by done.
      rewrite delete_splice_in by done. by apply splice_in_delete.
    + rewrite H1, decide_False, decide_True by done.
      by apply splice_in_delete.
  - destruct (decide (b = d)) as [->|Hbd].
    + rewrite H1, decide_True by done.
      rewrite (decide_False (P := a = d)) in Hj |- * by congruence.
      by apply delete_splice_in.
    + by rewrite H1, !decide_False.
Qed.

Lemma drag_back_restores_witness :
  cardsOf (cards (kanban (exec (handleDragEnd (drag "P" "B" 1 "A" 0))
                            (exec (handleDragEnd (drag "P" "A" 0 "B" 1))
                               (twoBoards []))))) (js "A")
  = [sampleCard "P" "A" 0; sampleCard "Q" "A" 1].
Proof.
  refine (drag_back_restores (twoBoards []) (drag "P" "A" 0 "B" 1)
    {| droppableId := js "B"; index := 1 |} (sampleCard "P" "A" 0)
    eq_refl _ eq_refl eq_refl _ _ (js "A")).
  - intros [H _]. discriminate H.
  - vm_compute. lia.
  - constructor.
Defined.

(** ** A destination index past the end *)

Lemma rearranged_keys bs cs tbl src dst c :
  inSync bs cs tbl ->
  cardsOf cs (droppableId src) !! index src = Some c ->
  exists newCards destCards sourceCards,
    rearrange cs src dst = Some (newCards, destCards, sourceCards)
    ∧ destCards
      = splice_in (index dst) (CardData.set_board_id (droppableId dst) c)
          (landing cs src dst)
    ∧ NoDup (CardData.id <$> destCards)
    ∧ (droppableId src ≠ droppableId dst -> NoDup (CardData.id <$> sourceCards))
    ∧ (droppableId src ≠ droppableId dst ->
       CardData.id c ∉ CardData.id <$> sourceCards)
    ∧ (droppableId src ≠ droppableId dst ->
       forall k, k ∈ CardData.id <$> destCards ->
                 k ∉ CardData.id <$> sourceCards).
Proof.
  intros Hs Hc. destruct src as [a i], dst as [d j]. unfold landing. cbn in *.
  destruct (decide (a = d)) as [<-|Had].
  - rewrite (rearrange_same _ _ _ j _ Hc). cbv zeta.
    eexists _, _, _. split; [done|]. split; [done|]. split; [|done].
    change (NoDup (ids (splice_in j (CardData.set_board_id a c)
                          (delete i (cardsOf cs a))))).
    rewrite ids_splice_in. cbn. rewrite <- (ids_delete _ _ _ Hc).
    by eapply inSync_NoDup.
  - rewrite (rearrange_cross _ _ _ _ j _ Had Hc).
    pose proof (inSync_NoDup _ _ _ Hs a) as Hnda.
    rewrite (ids_delete _ _ _ Hc) in Hnda.
    apply NoDup_cons in Hnda as [HcS HndS].
    assert (Hca : CardData.id c ∈ ids (cardsOf cs a))
      by (apply elem_of_ids; eauto).
    eexists _, _, _. split; [done|]. split; [done|]. split; [|split; [|split]].
    + change (NoDup (ids (splice_in j (CardData.set_board_id d c)
                            (cardsOf cs d)))).
      rewrite ids_splice_in. cbn. apply NoDup_cons.
      split; [by eapply inSync_apart|by eapply inSync_NoDup].
    + done.
    + done.
    + intros _ k Hk HkS.
      change (k ∈ ids (splice_in j (CardData.set_board_id d c) (cardsOf cs d)))
        in Hk.
      rewrite ids_splice_in in Hk. cbn in Hk.
      apply elem_of_cons in Hk as [-> | Hk]; [done|].
      eapply (inSync_apart _ _ _ Hs d a); [congruence|exact Hk|].
      rewrite (ids_delete _ _ _ Hc). apply elem_of_cons. by right.
Qed.

(** X9.  The destination index is taken on trust.  When it lies past the
    end of the landing array, the card is shown at the end of that array,
    yet the store is told the index as given: with every write applied the
    card is stored at a position that is not the index it is shown at, and
    memory and store are out of step. *)
Theorem handleDragEnd_index_past_end (w : World) (result : DropResult)
  (dst : Location) (c : CardData.t) :
  synced w ->
  destination result = Some dst ->
  ¬ isNoop (source result) dst ->
  cardsOf (cards (kanban w)) (droppableId (source result))
    !! index (source result) = Some c ->
  CardData.id c = draggableId result ->
  (length (landing (cards (kanban w)) (source result) dst) < index dst)%nat ->
  allDone (faults w) ->
  let w' := exec (handleDragEnd result) w in
  let n := length (landing (cards (kanban w)) (source result) dst) in
  cardsOf (cards (kanban w')) (droppableId dst)
  = landing (cards (kanban w)) (source result) dst
    ++ [CardData.set_board_id (droppableId dst) c]
  ∧ storedAt (cards_tbl (db w')) (CardData.id c) (droppableId dst)
      (Z.of_nat (index dst))
  ∧ ¬ synced w'.
Proof.
  intros Hs Hd Hn Hc Hid Hlen Hf w' n.
  destruct (rearranged_keys _ _ _ _ dst _ Hs Hc)
    as (nc & dC & sC & Hr & HdC & K1 & K2 & K3 & K4).
  pose proof (handleDragEnd_arrays _ _ _ _ Hd Hn Hc (allDone_noReject _ Hf)
                (droppableId dst)) as Harr.
  rewrite decide_True in Harr by done. fold w' in Harr.
  assert (Hshown : cardsOf (cards (kanban w')) (droppableId dst)
                   = landing (cards (kanban w)) (source result) dst
                     ++ [CardData.set_board_id (droppableId dst) c]).
  { rewrite Harr. unfold splice_in. fold n.
    by rewrite take_ge, drop_ge by (fold n; lia). }
  assert (Hstored : storedAt (cards_tbl (db w')) (CardData.id c)
                      (droppableId dst) (Z.of_nat (index dst))).
  { unfold w', exec.
    rewrite (handleDragEnd_run _ _ _ _ _ _ Hd Hn Hr (allDone_noReject _ Hf)).
    cbn [snd]. rewrite settle_cards_tbl by done.
    change (cards_tbl (db (exec (setCards nc) w))) with (cards_tbl (db w)).
    rewrite <- Hid. destruct Hs as [H1 _].
    destruct (H1 _ _ _ Hc) as (r & Hrow & Hb & Hp).
    eapply rehomed; [by exists r|].
    by apply moved_row. }
  split; [done|]. split; [done|].
  intros [H1 _].
  destruct (H1 (droppableId dst) n (CardData.set_board_id (droppableId dst) c))
    as (r & Hr1 & _ & Hp1).
  { rewrite Hshown. by rewrite lookup_app_r, Nat.sub_diag by (fold n; lia). }
  destruct Hstored as (r' & Hr2 & _ & Hp2). cbn in Hr1.
  rewrite Hr1 in Hr2. injection Hr2 as <-. lia.
Qed.

Lemma handleDragEnd_index_past_end_witness :
  storedAt
    (cards_tbl (db (exec (handleDragEnd (drag "X" "B" 0 "B" 5)) (oneBoard []))))
    (js "X") (js "B") 5.
Proof.
  refine (proj1 (proj2 (handleDragEnd_index_past_end (oneBoard [])
    (drag "X" "B" 0 "B" 5) {| droppableId := js "B"; index := 5 |}
    (sampleCard "X" "B" 0) (oneBoard_synced []) eq_refl _ eq_refl eq_refl _ _))).
  - intros [_ H]. discriminate H.
  - vm_compute. lia.
  - constructor.
Defined.

(** ** After a rejected write *)













(** ** Creation, the other paths *)

Lemma createCard_run gen_random_uuid w :
  cardFormValid w ->
  nextDone w ->
  cards_tbl (db w) !! gen_random_uuid (serial (db w)) = None ->
  createCard gen_random_uuid w
  = (Ret tt, createdCard (gen_random_uuid (serial (db w))) w).
Proof.
  intros [Ht Hb] Hd Hfresh.
  unfold createCard, bind at 1, get. rewrite Ht, Hb. cbn [negb orb].
  unfold try_catch, bind at 1, insert_cards. rewrite request_done by done.
  unfold insertCard. rewrite Hfresh.
  cbv [bind ret orThrow setCards setNewCard setShowCardDialog
       setSelectedBoardId toast modify with_kanban emit fst snd].
  cbn [kanban cards db cards_tbl modal faults log projectId boards loading
       showBoardDialog showCardDialog selectedBoardId newBoard newCard
       boards_tbl serial].
  unfold createdCard, newCardRow. by rewrite <- app_assoc.
Qed.

Lemma createCard_synced gen_random_uuid w :
  synced w ->
  cardFormValid w ->
  nextDone w ->
  cards_tbl (db w) !! gen_random_uuid (serial (db w)) = None ->
  synced (exec (createCard gen_random_uuid) w).
Proof.
  intros Hs Hv Hd Hfresh. unfold exec. rewrite createCard_run by done.
  cbn [snd]. unfold synced, scope.
  cbn [createdCard kanban boards cards db cards_tbl].
  set (key := gen_random_uuid (serial (db w))) in *.
  set (b := selectedBoardId (kanban w)).
  set (old := cardsOf (cards (kanban w)) b).
  pose proof Hs as [H1 _].
  assert (Hold : forall b' n c, cardsOf (cards (kanban w)) b' !! n = Some c ->
                                CardData.id c ≠ key).
  { intros b' n c Hc Heq. destruct (H1 _ _ _ Hc) as (r & Hr & _).
    rewrite Heq in Hr. congruence. }
  apply (inSync_update _ _ _ Hs (fun b' => b' = b)
           (fun k => k = key ∨ k ∈ ids old)).
  - intros b' n c -> Hc. rewrite cardsOf_insert, decide_True in Hc by done.
    fold old in Hc. apply lookup_app_Some in Hc as [Hc|[Hn Hc]].
    + destruct (H1 _ _ _ Hc) as (r & Hr & Hb & Hp). exists r.
      split; [|done]. rewrite lookup_insert_ne; [done|].
      intros Heq. by eapply Hold.
    + apply list_lookup_singleton_Some in Hc as [Hn' <-].
      exists (newCardRow w). cbn. rewrite lookup_insert_eq.
      split; [done|]. split; [done|]. fold b old. f_equal. lia.
  - intros b' Hb'. rewrite cardsOf_insert, decide_False; [done|congruence].
  - intros k Hk. apply lookup_insert_ne. intros <-. apply Hk. by left.
  - intros b' n c Hc. split.
    + intros ->. right. apply elem_of_ids. eauto.
    + intros [Heq|Hin]; [by destruct (Hold _ _ _ Hc)|].
      apply elem_of_ids in Hin as (n' & c' & Hc' & Heq). symmetry in Heq.
      by destruct (inSync_unique _ _ _ Hs _ _ _ _ _ _ Hc Hc' Heq).
  - intros k [-> | Hin].
    + exists b, (length old), (toCard key (newCardRow w)). split; [done|].
      rewrite cardsOf_insert, decide_True by done. fold old.
      split; [|done]. by rewrite lookup_app_r, Nat.sub_diag.
    + apply elem_of_ids in Hin as (n & c & Hc & <-).
      exists b, n, c. split; [done|].
      rewrite cardsOf_insert, decide_True by done. fold old.
      split; [|done]. by apply lookup_app_l_Some.
  - intros b'. apply _.
  - intros k. apply _.
Qed.

Lemma edited_synced gen_random_uuid w w' :
  synced w -> edited gen_random_uuid w w' -> synced w'.
Proof.
  intros Hs He. destruct He as [result w Hv Hf|w Hv Hd Hfresh].
  - eapply moved_synced; [exact Hs|]. by constructor.
  - by apply createCard_synced.
Qed.

(** X12.  Moves and card creations can be mixed freely.  From a state in
    which memory and store are in step, after any number of valid moves
    and card creations whose requests all succeed, memory and store are in
    step and the stored positions of every board of the project are exactly
    [0 .. count-1], each once. *)
Theorem edits_keep_positions_dense (gen_random_uuid : nat -> jsstring)
  (w w' : World) :
  synced w ->
  rtc (edited gen_random_uuid) w w' ->
  synced w'
  ∧ forall b, b ∈ scope w' -> densePositions (cards_tbl (db w')) b.
Proof.
  intros Hs Hm. induction Hm as [w|w w1 w2 Hstep _ IH].
  - split; [done|]. intros b Hb. by eapply inSync_dense.
  - apply IH. by eapply edited_synced.
Qed.

Lemma formWorld_synced : synced formWorld.
Proof. exact (oneBoard_synced []). Qed.

Lemma edits_keep_positions_dense_witness :
  densePositions
    (cards_tbl (db (exec (handleDragEnd (drag "X" "B" 0 "B" 3))
                      (exec (createCard sampleUuid) formWorld))))
    (js "B").
Proof.
  refine (proj2 (edits_keep_positions_dense sampleUuid formWorld _
                   formWorld_synced _) (js "B") _).
  - eapply rtc_l; [by apply edited_card|].
    apply rtc_once. apply edited_move; [|constructor]. split.
    + exists (sampleCard "X" "B" 0). by vm_compute.
    + intros dst [= <-]. vm_compute. lia.
  - vm_compute. apply elem_of_cons. by left.
Defined.

(** X13.  Validation comes before any request.  [createCard] with a title
    that is blank once trimmed, or with no board selected, and
    [createBoard] with a blank name, return at once: nothing is sent and
    nothing changes. *)
Theorem create_validates (gen_random_uuid : nat -> jsstring) (w : World) :
  (trim (nc_title (newCard (kanban w))) = [] ∨ selectedBoardId (kanban w) = [] ->
   createCard gen_random_uuid w = (Ret tt, w))
  ∧ (trim (newBoard (kanban w)) = [] ->
     createBoard gen_random_uuid w = (Ret tt, w)).
Proof.
  split.
  - intros H. unfold createCard, bind, get.
    destruct H as [-> | ->]; [done|]. by rewrite orb_true_r.
  - intros H. unfold createBoard, bind, get. by rewrite H.
Qed.

Lemma create_validates_witness :
  createCard sampleUuid (oneBoard []) = (Ret tt, oneBoard [])
  ∧ createBoard sampleUuid (oneBoard []) = (Ret tt, oneBoard []).
Proof.
  split.
  - apply (proj1 (create_validates sampleUuid (oneBoard []))). by left.
  - by apply (proj2 (create_validates sampleUuid (oneBoard []))).
Defined.

(** The insert of a card is not accepted: the store refuses it, the
    request rejects, or the generated key is taken. *)
Lemma createCard_refused gen_random_uuid w :
  cardFormValid w ->
  ¬ (nextDone w ∧ cards_tbl (db w) !! gen_random_uuid (serial (db w)) = None) ->
  exists msg w',
    createCard gen_random_uuid w = (Ret tt, w')
    ∧ kanban w' = kanban w
    ∧ db w' = db w
    ∧ log w' = log w ++ [Sent (InsertCard (newCardRow w)); Toast "Error" msg true].
Proof.
  intros [Ht Hb] Hno.
  unfold createCard, bind at 1, get. rewrite Ht, Hb. cbn [negb orb].
  unfold try_catch, bind at 1, insert_cards.
  fold (newCardRow w).
  destruct (faults w) as [|[|m|m] fs] eqn:E.
  - rewrite request_done by (unfold nextDone; by rewrite E).
    unfold insertCard.
    destruct (cards_tbl (db w) !! gen_random_uuid (serial (db w))) eqn:Hk.
    2:{ destruct Hno. split; [|done]. unfold nextDone. by rewrite E. }
    cbv [bind throw orThrow toast modify emit fst snd message_of].
    eexists _, _. split; [reflexivity|]. cbn. by rewrite <- app_assoc.
  - rewrite request_done by (unfold nextDone; by rewrite E).
    unfold insertCard.
    destruct (cards_tbl (db w) !! gen_random_uuid (serial (db w))) eqn:Hk.
    2:{ destruct Hno. split; [|done]. unfold nextDone. by rewrite E. }
    cbv [bind throw orThrow toast modify emit fst snd message_of].
    eexists _, _. split; [reflexivity|]. cbn. by rewrite <- app_assoc.
  - erewrite request_failed by done.
    cbv [bind throw orThrow toast modify emit fst snd message_of].
    eexists _, _. split; [reflexivity|]. cbn. by rewrite <- app_assoc.
  - erewrite request_rejected by done.
    cbv [bind throw orThrow toast modify emit fst snd message_of].
    eexists _, _. split; [reflexivity|]. cbn. by rewrite <- app_assoc.
Qed.

(** X14.  A card whose insert is not accepted (the store refuses it, the
    request rejects, or the generated key is taken) is shown nowhere:
    [createCard] returns normally, the arrays, the dialog and the form are
    as they were, the store is unchanged, and the trace gains the insert
    and an error notification. *)
Theorem createCard_failure_keeps_form (gen_random_uuid : nat -> jsstring)
  (w : World) :
  cardFormValid w ->
  ¬ (nextDone w ∧ cards_tbl (db w) !! gen_random_uuid (serial (db w)) = None) ->
  exists msg w',
    createCard gen_random_uuid w = (Ret tt, w')
    ∧ kanban w' = kanban w
    ∧ db w' = db w
    ∧ log w' = log w ++ [Sent (InsertCard (newCardRow w)); Toast "Error" msg true].
Proof. apply createCard_refused. Qed.

Lemma createCard_failure_keeps_form_witness :
  exists msg w',
    createCard sampleUuid
      (with_faults (fun _ => [Failed "violates row-level security"]) formWorld)
    = (Ret tt, w')
    ∧ kanban w' = kanban formWorld
    ∧ db w' = db formWorld
    ∧ log w' = [Sent (InsertCard (newCardRow formWorld)); Toast "Error" msg true].
Proof.
  apply (createCard_failure_keeps_form sampleUuid
           (with_faults (fun _ => [Failed "violates row-level security"])
              formWorld)).
  - by split.
  - intros [H _]. discriminate H.
Defined.

(** ** Tags, the other paths *)

Lemma removeTag_trace t w :
  let ts := filter (fun tag => tag ≠ t) (tags (modal w)) in
  tags (modal (exec (removeTag t) w)) = ts
  ∧ exists rest,
      log (exec (removeTag t) w)
      = log w
        ++ Sent (UpdateCard (CardData.id (card (modal w))) (tagsPatch ts))
        :: rest.
Proof.
  intros ts. cbv [exec removeTag bind get]. fold ts.
  cbv [setTags modify]. set (w1 := with_modal _ w).
  destruct (updateCardTags_trace ts w1) as [Hm [rest Hl]].
  unfold exec in Hm, Hl. rewrite Hm. split; [done|]. by exists rest.
Qed.

Lemma filter_absent (t : jsstring) (l : list jsstring) :
  t ∉ l -> filter (fun tag => tag ≠ t) l = l.
Proof.
  induction l as [|x l IH]; [done|]. intros [Hx Hl]%not_elem_of_cons.
  rewrite filter_cons_True by congruence. by rewrite IH.
Qed.

(** X15.  [removeTag t] leaves the tags other than [t] in their order,
    removes every occurrence of [t], and always sends an update carrying
    the resulting list, also when [t] was not among the tags. *)
Theorem removeTag_removes (t : jsstring) (w : World) :
  let ts := tags (modal (exec (removeTag t) w)) in
  ts = filter (fun tag => tag ≠ t) (tags (modal w))
  ∧ (t ∉ ts)
  ∧ (t ∉ tags (modal w) -> ts = tags (modal w))
  ∧ exists rest,
      log (exec (removeTag t) w)
      = log w
        ++ Sent (UpdateCard (CardData.id (card (modal w))) (tagsPatch ts))
        :: rest.
Proof.
  intros ts. destruct (removeTag_trace t w) as [Ht Hl]. fold ts in Ht.
  split; [done|]. split; [|split].
  - rewrite Ht. by intros [? _]%list_elem_of_filter.
  - intros Hnin. rewrite Ht. by apply filter_absent.
  - by rewrite Ht.
Qed.

Lemma removeTag_removes_witness :
  tags (modal (exec (removeTag (js "bug")) (tagWorld [js "ui"] (js "") [])))
  = [js "ui"].
Proof.
  refine (proj1 (proj2 (proj2
    (removeTag_removes (js "bug") (tagWorld [js "ui"] (js "") [])))) _).
  by apply (bool_decide_unpack _).
Defined.

(** X16.  Adding a tag and removing it again gives back the tag list, in
    its order, provided the tag is not blank and was not in the list;
    this holds whatever the store answers to the two updates. *)
Theorem addTag_removeTag_round_trip (w : World) :
  let t := newTag (modal w) in
  t ∉ tags (modal w) ->
  trim t ≠ [] ->
  tags (modal (exec (removeTag t) (exec addTag w))) = tags (modal w).
Proof.
  intros t Hnin Hnb.
  destruct (removeTag_trace t (exec addTag w)) as [-> _].
  assert (Hacc : tagRefused (modal w) = false).
  { unfold tagRefused. fold t. rewrite truthy_nonempty by done.
    by rewrite bool_decide_eq_false_2. }
  destruct (addTag_accepted w Hacc) as [-> _]. fold t.
  rewrite filter_app, filter_absent by done.
  rewrite filter_cons_False by (intros H; by apply H).
  by rewrite app_nil_r.
Qed.

Lemma addTag_removeTag_round_trip_witness :
  tags (modal (exec (removeTag (js "bug"))
                 (exec addTag (tagWorld [js "ui"] (js "bug") [Failed "denied"]))))
  = [js "ui"].
Proof.
  apply (addTag_removeTag_round_trip (tagWorld [js "ui"] (js "bug") [Failed "denied"])).
  - by apply (bool_decide_unpack _).
  - discriminate.
Defined.

(** X17.  A tag update that the store does not take is not undone on
    screen.  When [addTag] accepts a tag and its update is refused or
    rejects, the modal shows the longer list and an empty input while the
    store, the boards and the cards are as they were; the trace gains the
    update and an error notification carrying the store's message, and no
    reload. *)
Theorem addTag_failure_not_rolled_back (w : World) (o : Outcome) (m : string)
  (fs : list Outcome) :
  tagRefused (modal w) = false ->
  faults w = o :: fs ->
  o = Failed m ∨ o = Rejected m ->
  let ts := tags (modal w) ++ [newTag (modal w)] in
  let w' := exec addTag w in
  tags (modal w') = ts
  ∧ newTag (modal w') = []
  ∧ db w' = db w
  ∧ kanban w' = kanban w
  ∧ log w'
    = log w
      ++ [Sent (UpdateCard (CardData.id (card (modal w))) (tagsPatch ts));
          Toast "Error" m true].
Proof.
  intros Hacc Hfs Ho ts w'. unfold tagRefused in Hacc.
  unfold w'. cbv [exec addTag bind get]. rewrite Hacc. fold ts.
  cbv [setTags setNewTag modify updateCardTags try_catch bind get].
  cbn [modal with_modal card]. unfold update_cards.
  destruct Ho as [-> | ->].
  - erewrite request_failed by exact Hfs.
    cbv [orThrow throw toast modify emit message_of]. cbn.
    by rewrite <- app_assoc.
  - erewrite request_rejected by exact Hfs.
    cbv [orThrow throw toast modify emit message_of]. cbn.
    by rewrite <- app_assoc.
Qed.

Lemma addTag_failure_not_rolled_back_witness :
  tags (modal (exec addTag (tagWorld [js "ui"] (js "bug") [Failed "denied"])))
  = [js "ui"; js "bug"]
  ∧ db (exec addTag (tagWorld [js "ui"] (js "bug") [Failed "denied"]))
    = db (tagWorld [js "ui"] (js "bug") [Failed "denied"]).
Proof.
  destruct (addTag_failure_not_rolled_back
              (tagWorld [js "ui"] (js "bug") [Failed "denied"])
              (Failed "denied") "denied" [] eq_refl eq_refl (or_introl eq_refl))
    as (Ht & _ & Hdb & _).
  by split.
Defined.

Lemma allDone_head fs : allDone fs -> default Done (head fs) = Done.
Proof. destruct fs; [done|]. by inversion 1. Qed.

Lemma allDone_next w : allDone (faults w) -> nextDone w.
Proof. apply allDone_head. Qed.

Lemma elem_of_fetched w b c :
  c ∈ cardsOf (cards (kanban (fetched w))) b
  ↔ exists k r rb,
      cards_tbl (db w) !! k = Some r ∧ c = toCard k r ∧ cr_board_id r = b
      ∧ boards_tbl (db w) !! b = Some rb
      ∧ br_project_id rb = projectId (kanban w).
Proof.
  cbn [fetched kanban cards].
  rewrite cardsOf_grouped_empty, list_elem_of_filter, elem_of_selectCards.
  split.
  - intros (Hb & k & r & Hr & Hin & ->).
    apply list_elem_of_fmap in Hin as (bd & Hbd & Hin).
    apply elem_of_selectBoards in Hin as (kb & rb & Hrb & Hp & ->).
    cbn in Hbd, Hb. subst. by exists k, r, rb.
  - intros (k & r & rb & Hr & -> & Hb & Hrb & Hp). split; [done|].
    exists k, r. split; [done|]. split; [|done].
    apply list_elem_of_fmap. exists (toBoard b rb). split; [by rewrite Hb|].
    apply elem_of_selectBoards. by exists b, rb.
Qed.

(** X18.  A tag that is accepted reaches the board view.  When the update
    and the two reads of the reload that follows are answered, the store
    holds the longer tag list on the card's row and the board view shows
    the card with that list under its board; nothing else on the row
    changes. *)
Theorem addTag_reaches_board_view (w : World) (r : CardRow) (rb : BoardRow) :
  tagRefused (modal w) = false ->
  allDone (faults w) ->
  cards_tbl (db w) !! CardData.id (card (modal w)) = Some r ->
  boards_tbl (db w) !! cr_board_id r = Some rb ->
  br_project_id rb = projectId (kanban w) ->
  let k := CardData.id (card (modal w)) in
  let ts := tags (modal w) ++ [newTag (modal w)] in
  let r' := applyPatch (tagsPatch ts) r in
  let w' := exec addTag w in
  cards_tbl (db w') !! k = Some r'
  ∧ cr_tags r' = ts
  ∧ toCard k r' ∈ cardsOf (cards (kanban w')) (cr_board_id r)
  ∧ CardData.tags (toCard k r') = ts.
Proof.
  intros Hacc Hf Hrow Hboard Hpid k ts r' w'. unfold tagRefused in Hacc.
  assert (Hrun : exists w2,
            addTag w = (Ret tt, exec (setNewTag []) (fetched w2))
            ∧ cards_tbl (db w2) = alter (applyPatch (tagsPatch ts)) k (cards_tbl (db w))
            ∧ boards_tbl (db w2) = boards_tbl (db w)
            ∧ projectId (kanban w2) = projectId (kanban w)).
  { cbv [addTag bind get]. rewrite Hacc. fold ts.
    cbv [setTags modify updateCardTags try_catch bind get].
    cbn [modal with_modal card]. fold k. unfold update_cards.
    rewrite request_done by (by apply allDone_next).
    cbn [fst snd orThrow]. cbv [ret]. unfold onCardUpdate.
    set (w2 := {| kanban := _; modal := _; db := _; faults := _; log := _ |}).
    exists w2. rewrite fetchBoards_done.
    - done.
    - apply allDone_tail in Hf.
      split; [by apply allDone_head|]. by apply allDone_head, allDone_tail. }
  destruct Hrun as (w2 & Hrun & Htbl & Hbtbl & Hp2).
  unfold w', exec. rewrite Hrun. cbn [snd].
  change (cards_tbl (db (exec (setNewTag []) (fetched w2))))
    with (cards_tbl (db w2)).
  change (cards (kanban (exec (setNewTag []) (fetched w2))))
    with (cards (kanban (fetched w2))).
  assert (Hk : cards_tbl (db w2) !! k = Some r').
  { rewrite Htbl, lookup_alter_eq. unfold k. by rewrite Hrow. }
  split; [done|]. split; [done|]. split; [|done].
  apply elem_of_fetched. exists k, r', rb.
  by rewrite Hbtbl, Hp2.
Qed.

Lemma addTag_reaches_board_view_witness :
  toCard (js "X") (applyPatch (tagsPatch [js "ui"; js "bug"]) (sampleRow "X" "B" 0))
  ∈ cardsOf (cards (kanban (exec addTag (tagWorld [js "ui"] (js "bug") []))))
      (js "B").
Proof.
  refine (proj1 (proj2 (proj2 (addTag_reaches_board_view
    (tagWorld [js "ui"] (js "bug") []) (sampleRow "X" "B" 0)
    {| br_name := js "Doing"; br_project_id := js "proj"; br_position := 0 |}
    eq_refl _ eq_refl eq_refl eq_refl)))).
  constructor.
Defined.

(** ** From the load onwards *)

(** X19.  Load, then edit.  If the stored positions of every board of the
    project are [0 .. count-1] and the two reads of the load are answered,
    then after the load and any number of valid moves and card creations
    whose requests all succeed, the stored positions of every board on
    display are still exactly [0 .. count-1], each once. *)
Theorem load_then_edit_keeps_positions_dense
  (gen_random_uuid : nat -> jsstring) (w w' : World) :
  nextTwoDone w ->
  (forall k rb, boards_tbl (db w) !! k = Some rb ->
                br_project_id rb = projectId (kanban w) ->
                densePositions (cards_tbl (db w)) k) ->
  rtc (edited gen_random_uuid) (exec fetchBoards w) w' ->
  forall b, b ∈ scope w' -> densePositions (cards_tbl (db w')) b.
Proof.
  intros Hd Hdense Hm.
  assert (Hs : synced (exec fetchBoards w)).
  { unfold exec. rewrite fetchBoards_done by done. by apply fetched_synced. }
  revert Hs. induction Hm as [w0|w0 w1 w2 Hstep _ IH]; intros Hs.
  - intros b Hb. by eapply inSync_dense.
  - apply IH. by eapply edited_synced.
Qed.

Lemma load_then_edit_keeps_positions_dense_witness :
  densePositions
    (cards_tbl (db (exec (handleDragEnd (drag "X" "B" 0 "B" 2))
                      (exec fetchBoards (oneBoard [])))))
    (js "B").
Proof.
  refine (load_then_edit_keeps_positions_dense sampleUuid (oneBoard []) _
            _ _ _ (js "B") _).
  - by split.
  - intros k rb Hk _.
    apply (inSync_dense _ _ _ k (oneBoard_synced [])).
    cbn in Hk. apply lookup_insert_Some in Hk as [[<- _]|[_ Hk]].
    + apply elem_of_cons. by left.
    + by rewrite lookup_empty in Hk.
  - apply rtc_once. apply edited_move; [|constructor]. split.
    + exists (sampleCard "X" "B" 0). by vm_compute.
    + intros dst [= <-]. vm_compute. lia.
  - vm_compute. apply elem_of_cons. by left.
Defined.

(** X20.  A project without stored boards loads as an empty view: when
    both reads are answered and no stored board belongs to the project, no
    board and no card is shown, whatever cards the store holds. *)
Theorem fetchBoards_empty_project (w : World) :
  nextTwoDone w ->
  (forall k rb, boards_tbl (db w) !! k = Some rb ->
                br_project_id rb ≠ projectId (kanban w)) ->
  boards (kanban (exec fetchBoards w)) = []
  ∧ cards (kanban (exec fetchBoards w)) = ∅.
Proof.
  intros Hd Hnone. unfold exec. rewrite fetchBoards_done by done.
  cbn [snd fetched kanban boards cards].
  assert (Hb : selectBoards (projectId (kanban w)) (db w) = []).
  { apply elem_of_nil_inv. intros bd (k & rb & Hk & Hp & _)%elem_of_selectBoards.
    by eapply Hnone. }
  rewrite Hb. split; [done|].
  assert (Hc : selectCards (Board.id <$> []) (db w) = []).
  { apply elem_of_nil_inv. intros c (k & r & _ & Hin & _)%elem_of_selectCards.
    by apply not_elem_of_nil in Hin. }
  by rewrite Hc.
Qed.

Lemma fetchBoards_empty_project_witness :
  cards (kanban (exec fetchBoards
                   (with_kanban (fun k => sampleKanban [] ∅)
                      (with_db (fun s => {| boards_tbl := ∅;
                                            cards_tbl := cards_tbl s;
                                            serial := serial s |})
                         (oneBoard [])))))
  = ∅.
Proof.
  refine (proj2 (fetchBoards_empty_project _ _ _)).
  - by split.
  - intros k rb Hk. cbn in Hk. by rewrite lookup_empty in Hk.
Defined.



(** X22.  A board whose insert is not accepted (the store refuses it, the
    request rejects, or the generated key is taken) is not shown:
    [createBoard] returns normally, the boards on display, the dialog and
    the typed name are as they were, the store is unchanged, and the trace
    gains the insert and an error notification. *)
Theorem createBoard_failure_keeps_form (gen_random_uuid : nat -> jsstring)
  (w : World) :
  truthy (trim (newBoard (kanban w))) = true ->
  ¬ (nextDone w ∧ boards_tbl (db w) !! gen_random_uuid (serial (db w)) = None) ->
  exists msg w',
    createBoard gen_random_uuid w = (Ret tt, w')
    ∧ kanban w' = kanban w
    ∧ db w' = db w
    ∧ log w'
      = log w
        ++ [Sent (InsertBoard
                    {| br_name := newBoard (kanban w);
                       br_project_id := projectId (kanban w);
                       br_position := Z.of_nat (length (boards (kanban w))) |});
            Toast "Error" msg true].
Proof.
  intros Ht Hno.
  unfold createBoard, bind at 1, get. rewrite Ht. cbn [negb].
  unfold try_catch, bind at 1, insert_boards.
  destruct (faults w) as [|[|m|m] fs] eqn:E.
  - rewrite request_done by (unfold nextDone; by rewrite E).
    unfold insertBoard.
    destruct (boards_tbl (db w) !! gen_random_uuid (serial (db w))) eqn:Hk.
    2:{ destruct Hno. split; [|done]. unfold nextDone. by rewrite E. }
    cbv [bind throw orThrow toast modify emit fst snd message_of].
    eexists _, _. split; [reflexivity|]. cbn. by rewrite <- app_assoc.
  - rewrite request_done by (unfold nextDone; by rewrite E).
    unfold insertBoard.
    destruct (boards_tbl (db w) !! gen_random_uuid (serial (db w))) eqn:Hk.
    2:{ destruct Hno. split; [|done]. unfold nextDone. by rewrite E. }
    cbv [bind throw orThrow toast modify emit fst snd message_of].
    eexists _, _. split; [reflexivity|]. cbn. by rewrite <- app_assoc.
  - erewrite request_failed by done.
    cbv [bind throw orThrow toast modify emit fst snd message_of].
    eexists _, _. split; [reflexivity|]. cbn. by rewrite <- app_assoc.
  - erewrite request_rejected by done.
    cbv [bind throw orThrow toast modify emit fst snd message_of].
    eexists _, _. split; [reflexivity|]. cbn. by rewrite <- app_assoc.
Qed.

Lemma createBoard_failure_keeps_form_witness :
  exists msg w',
    createBoard sampleUuid
      (with_faults (fun _ => [Rejected "offline"]) formWorld) = (Ret tt, w')
    ∧ kanban w' = kanban formWorld
    ∧ db w' = db formWorld
    ∧ log w'
      = [Sent (InsertBoard {| br_name := js "Done"; br_project_id := js "proj";
                              br_position := 1 |});
         Toast "Error" msg true].
Proof.
  apply (createBoard_failure_keeps_form sampleUuid
           (with_faults (fun _ => [Rejected "offline"]) formWorld)).
  - done.
  - intros [H _]. discriminate H.
Defined.
